(** * failed_advanced_dl: the LLM response interpreter, the model selector
      and the upload script

    A shallow embedding of [failed_attempts/llm_client.py] and
    [failed_attempts/upload_to_gcs.py].

    Text model.  A Python [str] is modelled by [string]; a character is a
    code point below 256, so every class of characters the code relies on
    (whitespace, decimal digits, printable characters) is a finite table.

    Python objects are the values [json.loads] can produce; exceptions are
    explicit results. *)

From Stdlib Require Import ZArith List Bool Ascii String Lia Permutation.
From Stdlib Require Import DecimalString.
From Corelib Require Import SpecFloat.
Import ListNotations.

Local Open Scope list_scope.
Local Open Scope string_scope.
Local Open Scope Z_scope.

(** ** Exceptions and results *)

(** The exception classes that can leave the modelled code.
    [JSONDecodeError] is a subclass of [ValueError] in Python. *)
Inductive exn : Type :=
| ValueError (msg : string)
| JSONDecodeError
| TypeError
| OverflowError
| AttributeError.

Inductive outcome (A : Type) : Type :=
| Return (a : A)
| Raise (e : exn).

Arguments Return {A} a.
Arguments Raise {A} e.

Definition bind {A B : Type} (c : outcome A) (k : A -> outcome B) : outcome B :=
  match c with
  | Return a => k a
  | Raise e => Raise e
  end.

Notation "x <- c ;; k" := (bind c (fun x => k))
  (at level 61, c at next level, right associativity).

(** ** Python objects *)

(** A [dict] keeps its keys in insertion order; assigning to a key that is
    present replaces the value in place. *)
Definition dict (V : Type) : Type := list (string * V).

Fixpoint dict_get {V : Type} (k : string) (d : dict V) : option V :=
  match d with
  | [] => None
  | (k', v) :: d' => if String.eqb k k' then Some v else dict_get k d'
  end.

Fixpoint dict_set {V : Type} (k : string) (v : V) (d : dict V) : dict V :=
  match d with
  | [] => [(k, v)]
  | (k', v') :: d' =>
      if String.eqb k k' then (k', v) :: d' else (k', v') :: dict_set k v d'
  end.

Definition dict_keys {V : Type} (d : dict V) : list string := map fst d.

#[local] Set Warnings "-register-all".

(** The objects [json.loads] builds: [None], [bool], [int], [float] (an
    IEEE 754 binary64 value), [str], [list] and [dict] with [str] keys. *)
Inductive pyval : Type :=
| PNone
| PBool (b : bool)
| PInt (z : Z)
| PFloat (f : spec_float)
| PStr (s : string)
| PList (l : list pyval)
| PDict (d : dict pyval).

(** [bool(v)]: the truth value used by [or]. *)
Definition truthy (v : pyval) : bool :=
  match v with
  | PNone => false
  | PBool b => b
  | PInt z => negb (z =? 0)
  | PFloat (S754_zero _) => false
  | PFloat _ => true
  | PStr s => negb (s =? "")%string
  | PList l => match l with [] => false | _ => true end
  | PDict d => match d with [] => false | _ => true end
  end.

(** [a or b] on objects. *)
Definition py_or (a b : pyval) : pyval := if truthy a then a else b.

(** [d.get(k)] and [d.get(k, default)]. *)
Definition get_default (d : dict pyval) (k : string) (default : pyval) : pyval :=
  match dict_get k d with
  | Some v => v
  | None => default
  end.

(** [data.get]: only a [dict] has the attribute. *)
Definition attr_get (data : pyval) : outcome (dict pyval) :=
  match data with
  | PDict d => Return d
  | _ => Raise AttributeError
  end.

(** ** Characters and strings *)

Definition code (c : ascii) : Z := Z.of_N (N_of_ascii c).

Definition chr (z : Z) : ascii := ascii_of_N (Z.to_N z).

(** [str.isspace] on one character, which is also the class [\s] of [re]
    for [str] patterns. *)
Definition isspace (c : ascii) : bool :=
  let n := code c in
  ((9 <=? n) && (n <=? 13)) || ((28 <=? n) && (n <=? 32))
  || (n =? 133) || (n =? 160).

Fixpoint lstrip (s : string) : string :=
  match s with
  | EmptyString => EmptyString
  | String c s' => if isspace c then lstrip s' else s
  end.

Fixpoint rstrip (s : string) : string :=
  match s with
  | EmptyString => EmptyString
  | String c s' =>
      match rstrip s' with
      | EmptyString => if isspace c then EmptyString else String c EmptyString
      | r => String c r
      end
  end.

(** [s.strip()] *)
Definition strip (s : string) : string := rstrip (lstrip s).

(** [sub in s] on strings. *)
Fixpoint contains (sub s : string) : bool :=
  prefix sub s ||
  match s with
  | EmptyString => false
  | String _ s' => contains sub s'
  end.

(** [s.split(sep)[0]] for a one-character separator. *)
Fixpoint split_head (sep : ascii) (s : string) : string :=
  match s with
  | EmptyString => EmptyString
  | String c s' => if Ascii.eqb c sep then EmptyString else String c (split_head sep s')
  end.

Fixpoint drop (n : nat) (s : string) : string :=
  match n, s with
  | O, _ => s
  | S n', String _ s' => drop n' s'
  | S _, EmptyString => EmptyString
  end.

Fixpoint take (n : nat) (s : string) : string :=
  match n, s with
  | S n', String c s' => String c (take n' s')
  | _, _ => EmptyString
  end.

(** If [s] starts with [p], what follows [p]. *)
Fixpoint strip_prefix (p s : string) : option string :=
  match p, s with
  | EmptyString, _ => Some s
  | String a p', String b s' => if Ascii.eqb a b then strip_prefix p' s' else None
  | String _ _, EmptyString => None
  end.

Definition is_digit (c : ascii) : bool := (48 <=? code c) && (code c <=? 57).

Definition digit_value (c : ascii) : Z := code c - 48.

(** ** [int(x)] *)

(** The whitespace [int] accepts around a numeral. *)
Definition int_space (c : ascii) : bool :=
  let n := code c in
  ((9 <=? n) && (n <=? 13)) || (n =? 32) || (n =? 133) || (n =? 160).

Fixpoint skip_int_space (s : string) : string :=
  match s with
  | EmptyString => EmptyString
  | String c s' => if int_space c then skip_int_space s' else s
  end.

(** Digits with single underscores between them.  [prev] tells whether the
    previous character was an underscore; the result is the value, the
    number of digits and the rest of the text. *)
Fixpoint scan_digits (s : string) (acc : Z) (count : nat) (prev : bool)
  : option (Z * nat * string) :=
  match s with
  | String c s' =>
      if is_digit c then scan_digits s' (10 * acc + digit_value c) (S count) false
      else if Ascii.eqb c "_" then
        if prev then None else scan_digits s' acc count true
      else if prev then None else Some (acc, count, s)
  | EmptyString => if prev then None else Some (acc, count, s)
  end.

(** The default of [sys.get_int_max_str_digits()]. *)
Definition max_str_digits : nat := 4300.

(** [int(s)] for a string: [None] stands for [ValueError]. *)
Definition int_of_str (s : string) : option Z :=
  let s1 := skip_int_space s in
  let '(neg, s2) :=
    match s1 with
    | String "+" r => (false, r)
    | String "-" r => (true, r)
    | _ => (false, s1)
    end in
  match s2 with
  | String c _ =>
      if is_digit c then
        match scan_digits s2 0 0 false with
        | Some (v, count, rest) =>
            match skip_int_space rest with
            | EmptyString =>
                if Nat.ltb max_str_digits count then None
                else Some (if neg then - v else v)
            | _ => None
            end
        | None => None
        end
      else None
  | EmptyString => None
  end.

(** [int(f)] for a float with a value: the integer part, towards zero. *)
Definition trunc_finite (s : bool) (m : positive) (e : Z) : Z :=
  let a := if 0 <=? e then Z.pos m * 2 ^ e else Z.pos m / 2 ^ (- e) in
  if s then - a else a.

Definition py_int (v : pyval) : outcome Z :=
  match v with
  | PNone => Raise TypeError
  | PBool b => Return (if b then 1 else 0)
  | PInt z => Return z
  | PFloat (S754_zero _) => Return 0
  | PFloat (S754_finite s m e) => Return (trunc_finite s m e)
  | PFloat (S754_infinity _) => Raise OverflowError
  | PFloat S754_nan => Raise (ValueError "cannot convert float NaN to integer")
  | PStr s =>
      match int_of_str s with
      | Some z => Return z
      | None => Raise (ValueError "invalid literal for int() with base 10")
      end
  | PList _ => Raise TypeError
  | PDict _ => Raise TypeError
  end.

(** ** Floats: [float(literal)] and [repr(f)] *)

Definition prec64 : Z := 53.
Definition emax64 : Z := 1024.

(** The binary64 value nearest to [digits * 10 ^ e10] (ties to even; too
    large a value gives an infinity), as [float] computes it from a decimal
    literal. *)
Definition float_of_decimal (neg : bool) (digits : Z) (e10 : Z) : spec_float :=
  match digits with
  | Z.pos d =>
      if 0 <=? e10 then
        binary_normalize prec64 emax64
          (if neg then - (digits * 10 ^ e10) else digits * 10 ^ e10) 0 neg
      else
        SFdiv prec64 emax64 (S754_finite neg d 0)
          (S754_finite false (Z.to_pos (10 ^ (- e10))) 0)
  | _ => S754_zero neg
  end.

Definition spec_float_eqb (x y : spec_float) : bool :=
  match x, y with
  | S754_zero a, S754_zero b => Bool.eqb a b
  | S754_infinity a, S754_infinity b => Bool.eqb a b
  | S754_nan, S754_nan => true
  | S754_finite a m e, S754_finite b m' e' =>
      Bool.eqb a b && Pos.eqb m m' && (e =? e')
  | _, _ => false
  end.

(** [str(z)] for an integer. *)
Definition str_of_Z (z : Z) : string := NilZero.string_of_int (Z.to_int z).

Fixpoint zeros (n : nat) : string :=
  match n with
  | O => EmptyString
  | S n' => String "0" (zeros n')
  end.

(** Trailing zeros of a decimal numeral move into the exponent. *)
Fixpoint strip_zeros (fuel : nat) (d e : Z) : Z * Z :=
  match fuel with
  | O => (d, e)
  | S fuel' =>
      if (d mod 10 =? 0) && negb (d =? 0) then strip_zeros fuel' (d / 10) (e + 1)
      else (d, e)
  end.

(** The positive value [m * 2 ^ e] as a fraction. *)
Definition frac_of (m : positive) (e : Z) : Z * Z :=
  if 0 <=? e then (Z.pos m * 2 ^ e, 1) else (Z.pos m, 2 ^ (- e)).

(** [decpt]: the [k] with [10 ^ (k - 1) <= num / den < 10 ^ k], looked for
    around an estimate from the binary logarithm. *)
Definition scale10 (num den k : Z) : Z * Z :=
  if 0 <=? k then (num * 10 ^ k, den) else (num, den * 10 ^ (- k)).

Definition decpt_ok (num den k : Z) : bool :=
  let '(n1, d1) := scale10 num den (1 - k) in
  let '(n2, d2) := scale10 num den (- k) in
  (d1 <=? n1) && (n2 <? d2).

Definition decpt_of (num den : Z) : Z :=
  let est := (Z.log2 num - Z.log2 den) * 30103 / 100000 in
  match filter (decpt_ok num den) [est - 1; est; est + 1; est + 2] with
  | k :: _ => k
  | [] => est
  end.

(** The candidates with [n] significant digits next to [m * 2 ^ e] that
    [float] reads back as the same float; the nearer one first. *)
Definition repr_candidates (s : bool) (m : positive) (e : Z) (k : Z) (n : Z)
  : list (Z * Z) :=
  let '(num, den) := frac_of m e in
  let '(sn, sd) := scale10 num den (n - k) in
  let lo := sn / sd in
  let r := sn mod sd in
  let back d := spec_float_eqb (float_of_decimal s d (k - n)) (S754_finite s m e) in
  let order :=
    if r =? 0 then [lo]
    else if (2 * r <? sd) || ((2 * r =? sd) && Z.even lo) then [lo; lo + 1]
    else [lo + 1; lo] in
  map (fun d => (d, k - n)) (filter back order).

Fixpoint shortest_digits (s : bool) (m : positive) (e : Z) (k : Z) (n : Z)
    (fuel : nat) : Z * Z :=
  match fuel with
  | O =>
      let '(num, den) := frac_of m e in
      let '(sn, sd) := scale10 num den (n - k) in
      (sn / sd, k - n)
  | S fuel' =>
      match repr_candidates s m e k n with
      | c :: _ => c
      | [] => shortest_digits s m e k (n + 1) fuel'
      end
  end.

(** [repr] layout of the digits [ds] with the decimal point after the
    first [decpt] of them. *)
Definition format_repr (ds : string) (decpt : Z) : string :=
  let n := Z.of_nat (String.length ds) in
  if (-4 <? decpt) && (decpt <=? 16) then
    if decpt <=? 0 then "0." ++ zeros (Z.to_nat (- decpt)) ++ ds
    else if decpt <? n then
      take (Z.to_nat decpt) ds ++ "." ++ drop (Z.to_nat decpt) ds
    else ds ++ zeros (Z.to_nat (decpt - n)) ++ ".0"
  else
    let x := decpt - 1 in
    let xs := str_of_Z (Z.abs x) in
    take 1 ds ++ (if 1 <? n then "." ++ drop 1 ds else "")
      ++ "e" ++ (if x <? 0 then "-" else "+")
      ++ (if Z.abs x <? 10 then "0" ++ xs else xs).

(** [repr(f)], which is also [str(f)]. *)
Definition float_repr (f : spec_float) : string :=
  match f with
  | S754_nan => "nan"
  | S754_infinity s => if s then "-inf" else "inf"
  | S754_zero s => if s then "-0.0" else "0.0"
  | S754_finite s m e =>
      let '(num, den) := frac_of m e in
      let k := decpt_of num den in
      let '(d0, e0) := shortest_digits s m e k 1 17 in
      let '(d, e1) := strip_zeros 400 d0 e0 in
      let ds := str_of_Z d in
      (if s then "-" else "") ++ format_repr ds (Z.of_nat (String.length ds) + e1)
  end.

(** ** [repr] and [str] *)

Definition quote : ascii := chr 34.
Definition apostrophe : ascii := chr 39.
Definition backslash : ascii := chr 92.

Definition hex_digit (n : Z) : ascii :=
  if n <? 10 then chr (48 + n) else chr (87 + n).

(** [str.isprintable] on one character. *)
Definition isprintable (c : ascii) : bool :=
  let n := code c in
  ((32 <=? n) && (n <? 127)) || ((161 <=? n) && negb (n =? 173)).

Definition repr_char (q : ascii) (c : ascii) : string :=
  let n := code c in
  if Ascii.eqb c q || Ascii.eqb c backslash then String backslash (String c "")
  else if n =? 9 then String backslash "t"
  else if n =? 10 then String backslash "n"
  else if n =? 13 then String backslash "r"
  else if isprintable c then String c ""
  else String backslash (String "x" (String (hex_digit (n / 16)) (String (hex_digit (n mod 16)) ""))).

Fixpoint has_char (c : ascii) (s : string) : bool :=
  match s with
  | EmptyString => false
  | String a s' => Ascii.eqb a c || has_char c s'
  end.

Fixpoint repr_chars (q : ascii) (s : string) : string :=
  match s with
  | EmptyString => EmptyString
  | String c s' => repr_char q c ++ repr_chars q s'
  end.

(** [repr(s)] for a string: apostrophes around it, unless it holds an
    apostrophe and no quotation mark. *)
Definition str_repr (s : string) : string :=
  let q := if has_char apostrophe s && negb (has_char quote s) then quote else apostrophe in
  String q (repr_chars q s ++ String q "").

Fixpoint join (sep : string) (l : list string) : string :=
  match l with
  | [] => ""
  | [x] => x
  | x :: l' => x ++ sep ++ join sep l'
  end.

Fixpoint py_repr (v : pyval) : string :=
  match v with
  | PNone => "None"
  | PBool b => if b then "True" else "False"
  | PInt z => str_of_Z z
  | PFloat f => float_repr f
  | PStr s => str_repr s
  | PList l => "[" ++ join ", " (map py_repr l) ++ "]"
  | PDict d =>
      "{" ++ join ", " (map (fun kv => let '(k, x) := kv in str_repr k ++ ": " ++ py_repr x) d)
        ++ "}"
  end.

(** [str(v)] *)
Definition py_str (v : pyval) : string :=
  match v with
  | PStr s => s
  | _ => py_repr v
  end.

(** ** The fenced-block pattern of [re.search] *)

(** The pieces a pattern is made of: a literal, an optional literal
    [(?:s)?], a greedy repetition of a character class [c*], and the two
    ends of group 1. *)
Inductive node : Type :=
| Lit (s : string)
| Opt (s : string)
| Many (p : ascii -> bool)
| Open
| Close.

Fixpoint span (p : ascii -> bool) (s : string) : nat :=
  match s with
  | String c s' => if p c then S (span p s') else O
  | EmptyString => O
  end.

(** Greedy repetition: the continuation [k] is tried after [n] characters,
    then after [n - 1], down to none. *)
Fixpoint try_from (k : string -> option string) (s : string) (n : nat) : option string :=
  match k (drop n s) with
  | Some r => Some r
  | None =>
      match n with
      | O => None
      | S n' => try_from k s n'
      end
  end.

(** A backtracking match of [pat] at the start of [s]; [start] is the text
    from where group 1 opened and [cap] what group 1 holds.  The result is
    group 1 of the first match in the order a backtracking matcher tries. *)
Fixpoint match_here (pat : list node) (s start cap : string) : option string :=
  match pat with
  | [] => Some cap
  | Lit l :: pat' =>
      match strip_prefix l s with
      | Some s' => match_here pat' s' start cap
      | None => None
      end
  | Opt l :: pat' =>
      match strip_prefix l s with
      | Some s' =>
          match match_here pat' s' start cap with
          | Some r => Some r
          | None => match_here pat' s start cap
          end
      | None => match_here pat' s start cap
      end
  | Many p :: pat' => try_from (fun s' => match_here pat' s' start cap) s (span p s)
  | Open :: pat' => match_here pat' s s cap
  | Close :: pat' =>
      match_here pat' s start (take (String.length start - String.length s) start)
  end.

(** [re.search(pat, s)]: the match at the leftmost position that has one;
    the result is its group 1. *)
Fixpoint search (pat : list node) (s : string) : option string :=
  match match_here pat s "" "" with
  | Some g => Some g
  | None =>
      match s with
      | EmptyString => None
      | String _ s' => search pat s'
      end
  end.

Definition any_char (c : ascii) : bool := true.

(** The pattern of line 35, with [re.DOTALL]: three backticks, an optional
    [json], whitespace, group 1 from a brace to a brace, whitespace, three
    backticks. *)
Definition fence : list node :=
  [Lit "```"; Opt "json"; Many isspace; Open; Lit "{"; Many any_char; Lit "}";
   Close; Many isspace; Lit "```"].

(** ** [json.loads]

    The decoder of the standard library with its default settings, for the
    text model above: an escape [\uXXXX] is read when it names a character
    of the model.  [fuel] bounds the depth of the calls, and [json_loads]
    starts with enough of it ([json_loads_fuel] below); the recursion limit
    of the interpreter is not modelled. *)

Definition json_ws (c : ascii) : bool :=
  let n := code c in (n =? 32) || (n =? 9) || (n =? 10) || (n =? 13).

Fixpoint skip_ws (s : string) : string :=
  match s with
  | EmptyString => EmptyString
  | String c s' => if json_ws c then skip_ws s' else s
  end.

Definition decode_error {A : Type} : outcome A := Raise JSONDecodeError.

Definition hex_value (c : ascii) : option Z :=
  let n := code c in
  if is_digit c then Some (n - 48)
  else if (97 <=? n) && (n <=? 102) then Some (n - 87)
  else if (65 <=? n) && (n <=? 70) then Some (n - 55)
  else None.

Definition hex4 (a b c d : ascii) : option Z :=
  match hex_value a, hex_value b, hex_value c, hex_value d with
  | Some x, Some y, Some z, Some w => Some (((x * 16 + y) * 16 + z) * 16 + w)
  | _, _, _, _ => None
  end.

(** The character a one-letter escape stands for. *)
Definition unescape (c : ascii) : option ascii :=
  let n := code c in
  if (n =? 34) || (n =? 92) || (n =? 47) then Some c
  else if n =? 98 then Some (chr 8)
  else if n =? 102 then Some (chr 12)
  else if n =? 110 then Some (chr 10)
  else if n =? 114 then Some (chr 13)
  else if n =? 116 then Some (chr 9)
  else None.

Definition cons_char (c : ascii) (r : outcome (string * string)) : outcome (string * string) :=
  p <- r ;; Return (String c (fst p), snd p).

(** [scanstring], strict: the text after an opening quotation mark, up to
    the closing one. *)
Fixpoint scanstring (s : string) : outcome (string * string) :=
  match s with
  | EmptyString => decode_error
  | String c s' =>
      if code c =? 34 then Return ("", s')
      else if code c =? 92 then
        match s' with
        | String e s'' =>
            if code e =? 117 then
              match s'' with
              | String h1 (String h2 (String h3 (String h4 rest))) =>
                  match hex4 h1 h2 h3 h4 with
                  | Some n => if n <? 256 then cons_char (chr n) (scanstring rest) else decode_error
                  | None => decode_error
                  end
              | _ => decode_error
              end
            else
              match unescape e with
              | Some x => cons_char x (scanstring s'')
              | None => decode_error
              end
        | EmptyString => decode_error
        end
      else if code c <? 32 then decode_error
      else cons_char c (scanstring s')
  end.

(** The digits at the start of [s]: their value, their number, the rest. *)
Fixpoint take_digits (s : string) (acc : Z) (count : nat) : Z * nat * string :=
  match s with
  | String c s' =>
      if is_digit c then take_digits s' (10 * acc + digit_value c) (S count)
      else (acc, count, s)
  | EmptyString => (acc, count, s)
  end.

(** The three groups of the number pattern at the start of [s]: an integer
    part (a zero, or digits that start with a non-zero one), an optional
    fraction (a point and digits) and an optional exponent (e or E, an
    optional sign, digits).  The sign of the number is read before them. *)
Definition int_part (s : string) : option (Z * nat * string) :=
  match s with
  | String c s' =>
      if code c =? 48 then Some (0, 1%nat, s')
      else if is_digit c then Some (take_digits s 0 0)
      else None
  | EmptyString => None
  end.

Definition frac_part (s : string) : option (Z * nat * string) :=
  match s with
  | String c (String d s') =>
      if (code c =? 46) && is_digit d then Some (take_digits (String d s') 0 0)
      else None
  | _ => None
  end.

Definition exp_part (s : string) : option (Z * string) :=
  match s with
  | String c s1 =>
      if (code c =? 101) || (code c =? 69) then
        let '(neg, s2) :=
          match s1 with
          | String "+" r => (false, r)
          | String "-" r => (true, r)
          | _ => (false, s1)
          end in
        match s2 with
        | String d _ =>
            if is_digit d then
              let '(v, _, rest) := take_digits s2 0 0 in
              Some (if neg then - v else v, rest)
            else None
        | EmptyString => None
        end
      else None
  | EmptyString => None
  end.

Definition too_many_digits : exn :=
  ValueError "Exceeds the limit (4300 digits) for integer string conversion".

(** [match_number] and the conversion of what it matched: [None] when the
    text does not start with a number. *)
Definition scan_number (s : string) : option (outcome (pyval * string)) :=
  let '(neg, s1) :=
    match s with
    | String "-" r => (true, r)
    | _ => (false, s)
    end in
  match int_part s1 with
  | None => None
  | Some (i, ni, s2) =>
      let '(f, nf, s3, has_frac) :=
        match frac_part s2 with
        | Some (f, nf, r) => (f, nf, r, true)
        | None => (0, O, s2, false)
        end in
      let '(x, s4, has_exp) :=
        match exp_part s3 with
        | Some (x, r) => (x, r, true)
        | None => (0, s3, false)
        end in
      if has_frac || has_exp then
        Some (Return (PFloat (float_of_decimal neg (i * 10 ^ Z.of_nat nf + f)
                                (x - Z.of_nat nf)), s4))
      else if Nat.ltb max_str_digits ni then Some (Raise too_many_digits)
      else Some (Return (PInt (if neg then - i else i), s4))
  end.

(** The words at the start of a value, in the order the scanner looks for
    them around [match_number]. *)
Definition scan_word (s : string) : outcome (pyval * string) :=
  match strip_prefix "null" s, strip_prefix "true" s, strip_prefix "false" s with
  | Some r, _, _ => Return (PNone, r)
  | _, Some r, _ => Return (PBool true, r)
  | _, _, Some r => Return (PBool false, r)
  | None, None, None =>
      match scan_number s with
      | Some res => res
      | None =>
          match strip_prefix "NaN" s, strip_prefix "Infinity" s, strip_prefix "-Infinity" s with
          | Some r, _, _ => Return (PFloat S754_nan, r)
          | _, Some r, _ => Return (PFloat (S754_infinity false), r)
          | _, _, Some r => Return (PFloat (S754_infinity true), r)
          | None, None, None => decode_error
          end
      end
  end.

Fixpoint scan_once (fuel : nat) (s : string) : outcome (pyval * string) :=
  match fuel with
  | O => decode_error
  | S fuel' =>
      match s with
      | String c s' =>
          if code c =? 34 then
            p <- scanstring s' ;; Return (PStr (fst p), snd p)
          else if code c =? 123 then
            match skip_ws s' with
            | String d r =>
                if code d =? 125 then Return (PDict [], r)
                else if code d =? 34 then scan_pairs fuel' [] r
                else decode_error
            | EmptyString => decode_error
            end
          else if code c =? 91 then
            match skip_ws s' with
            | String d r =>
                if code d =? 93 then Return (PList [], r)
                else scan_items fuel' [] (String d r)
            | EmptyString => decode_error
            end
          else scan_word s
      | EmptyString => decode_error
      end
  end

(** The elements of an array, from the start of an element. *)
with scan_items (fuel : nat) (acc : list pyval) (s : string) : outcome (pyval * string) :=
  match fuel with
  | O => decode_error
  | S fuel' =>
      p <- scan_once fuel' s ;;
      match skip_ws (snd p) with
      | String d r =>
          if code d =? 93 then Return (PList (acc ++ [fst p])%list, r)
          else if code d =? 44 then scan_items fuel' (acc ++ [fst p])%list (skip_ws r)
          else decode_error
      | EmptyString => decode_error
      end
  end

(** The pairs of an object, from after the quotation mark that opens a
    key; a key met again keeps its place and takes the new value. *)
with scan_pairs (fuel : nat) (acc : dict pyval) (s : string) : outcome (pyval * string) :=
  match fuel with
  | O => decode_error
  | S fuel' =>
      k <- scanstring s ;;
      match skip_ws (snd k) with
      | String c r1 =>
          if code c =? 58 then
            p <- scan_once fuel' (skip_ws r1) ;;
            match skip_ws (snd p) with
            | String d r2 =>
                if code d =? 125 then Return (PDict (dict_set (fst k) (fst p) acc), r2)
                else if code d =? 44 then
                  match skip_ws r2 with
                  | String e r3 =>
                      if code e =? 34 then scan_pairs fuel' (dict_set (fst k) (fst p) acc) r3
                      else decode_error
                  | EmptyString => decode_error
                  end
                else decode_error
            | EmptyString => decode_error
            end
          else decode_error
      | EmptyString => decode_error
      end
  end.

(** [json.loads(s)]: one value between optional whitespace. *)
Definition json_loads (s : string) : outcome pyval :=
  p <- scan_once (2 * String.length s + 2) (skip_ws s) ;;
  match skip_ws (snd p) with
  | EmptyString => Return (fst p)
  | _ => decode_error
  end.

(** Text literals below write an apostrophe where the text has a quotation
    mark: [q s] is [s] with every apostrophe turned into a quotation mark. *)
Fixpoint q (s : string) : string :=
  match s with
  | EmptyString => EmptyString
  | String c s' => String (if Ascii.eqb c apostrophe then quote else c) (q s')
  end.

Definition newline : string := String (chr 10) "".

(** ** [llm_client.py] *)

(** *** [_pick_model] *)

(** What [ollama.list()] answers: the attribute [models] may be missing or
    [None], and so may the attribute [model] of an entry. *)
Definition list_response : Type := option (list (option string)).

(** Line 23 and 24: the names of the entries that have a non-empty one. *)
Definition model_names (resp : list_response) : list string :=
  let models := match resp with Some l => l | None => [] end in
  flat_map (fun m =>
              match m with
              | Some n => if (n =? "")%string then [] else [n]
              | None => []
              end) models.

(** The condition of line 26. *)
Definition name_matches (preferred n : string) : bool :=
  contains preferred n
  || (if contains ":" preferred then contains (split_head ":" preferred) n
      else contains preferred n).

(** The loop of lines 25 to 27: the first name the condition holds for. *)
Fixpoint first_match (preferred : string) (names : list string) : option string :=
  match names with
  | [] => None
  | n :: rest => if name_matches preferred n then Some n else first_match preferred rest
  end.

(** Lines 25 to 28 on the list of names. *)
Definition pick_from (names : list string) (preferred : string) : string :=
  match first_match preferred names with
  | Some n => n
  | None =>
      match names with
      | n :: _ => n
      | [] => preferred
      end
  end.

Definition _pick_model (resp : list_response) (preferred : string) : string :=
  pick_from (model_names resp) preferred.

(** *** [_parse_mappings_json] *)

(** The value stored for a name: [{"sub_region": ..., "affluence_score": ...}]. *)
Record record : Type := mk_record {
  sub_region : string;
  affluence_score : Z
}.

(** Lines 50 to 53: [int(aff)], with 5 when it raises [TypeError] or
    [ValueError] (or a subclass); any other exception goes on. *)
Definition coerce_score (aff : pyval) : outcome Z :=
  match py_int aff with
  | Return z => Return z
  | Raise TypeError => Return 5
  | Raise (ValueError _) => Return 5
  | Raise JSONDecodeError => Return 5
  | Raise e => Raise e
  end.

(** Line 54. *)
Definition clamp (aff : Z) : Z := Z.max 1 (Z.min 10 aff).

(** The body of the loop, lines 44 to 55, on the result so far. *)
Definition store_item (result : dict record) (item : pyval) : outcome (dict record) :=
  match item with
  | PDict d =>
      let name := get_default d "original_name" PNone in
      let sub := get_default d "sub_region" (PStr "Unknown") in
      let aff := get_default d "affluence_score" (PInt 5) in
      match name with
      | PNone => Return result
      | _ =>
          aff1 <- coerce_score aff ;;
          let aff2 := clamp aff1 in
          Return (dict_set (py_str name) (mk_record (py_str sub) aff2) result)
      end
  | _ => Return result
  end.

(** The loop of line 43. *)
Fixpoint for_items (result : dict record) (items : list pyval) : outcome (dict record) :=
  match items with
  | [] => Return result
  | item :: rest => r <- store_item result item ;; for_items r rest
  end.

(** Lines 39 to 56, on the decoded document. *)
Definition read_mappings (data : pyval) : outcome (dict record) :=
  d <- attr_get data ;;
  let mappings :=
    py_or (py_or (get_default d "mappings" PNone) (get_default d "mapping" PNone))
      (PList []) in
  match mappings with
  | PList items => for_items [] items
  | _ => Raise (ValueError "Expected 'mappings' array")
  end.

(** Lines 33 to 37: the text handed to the decoder. *)
Definition candidate (text : string) : string :=
  let text := strip text in
  match search fence text with
  | Some g => g
  | None => text
  end.

Section Interpreter.

(** [json.loads]; the function is stated for any decoder, and run with
    [json_loads]. *)
Variable loads : string -> outcome pyval.

Definition _parse_mappings_json (text : string) : outcome (dict record) :=
  data <- loads (candidate text) ;;
  read_mappings data.

End Interpreter.

(** ** [upload_to_gcs.py] *)

Module Upload.

(** What the script can change: the files it writes, the environment of
    the process, the objects in the bucket and the lines it prints. *)
Record state : Type := mk_state {
  disk : dict string;
  environ : dict string;
  bucket : list (string * string);
  stdout : list string
}.

(** What the script meets and does not decide: whether the client of the
    storage service can be built, the reports directory and whether it
    exists,
    its entries (name, and whether it is a regular file), whether the
    upload of a file succeeds, and the date. *)
Record world : Type := mk_world {
  client_ok : bool;
  report_dir : string;
  reports_exist : bool;
  entries : list (string * bool);
  upload_ok : string -> bool;
  today : string
}.

Inductive exit : Type :=
| Returned
| Failed.

Definition creds_path : string := "/tmp/gcp-sa-key.json".

Definition print (line : string) (st : state) : state :=
  mk_state (disk st) (environ st) (bucket st) (stdout st ++ [line])%list.

Definition write_text (path content : string) (st : state) : state :=
  mk_state (dict_set path content (disk st)) (environ st) (bucket st) (stdout st).

Definition setenv (k v : string) (st : state) : state :=
  mk_state (disk st) (dict_set k v (environ st)) (bucket st) (stdout st).

(** [Path.unlink(missing_ok=True)] *)
Definition unlink (path : string) (st : state) : state :=
  mk_state (filter (fun kv => negb (fst kv =? path)%string) (disk st))
    (environ st) (bucket st) (stdout st).

Definition exists_file (path : string) (st : state) : bool :=
  match dict_get path (disk st) with
  | Some _ => true
  | None => false
  end.

(** The loop of lines 33 to 37; an upload that fails ends the run. *)
Fixpoint upload_all (w : world) (bucket_name prefix : string)
    (fs : list (string * bool)) (st : state) : state * exit :=
  match fs with
  | [] => (st, Returned)
  | (name, is_file) :: rest =>
      if is_file then
        if upload_ok w name then
          let st1 := mk_state (disk st) (environ st)
                       (bucket st ++ [(bucket_name, (prefix ++ "/" ++ name)%string)])%list
                       (stdout st) in
          let st2 := print ("Uploaded " ++ name ++ " -> gs://" ++ bucket_name
                            ++ "/" ++ prefix ++ "/" ++ name) st1 in
          upload_all w bucket_name prefix rest st2
        else (st, Failed)
      else upload_all w bucket_name prefix rest st
  end.

Definition nonempty (v : option string) : option string :=
  match v with
  | Some s => if (s =? "")%string then None else Some s
  | None => None
  end.

Definition main (w : world) (st : state) : state * exit :=
  match nonempty (dict_get "GCS_BUCKET" (environ st)) with
  | None => (print "GCS_BUCKET not set; skipping upload." st, Returned)
  | Some bucket_name =>
      match nonempty (dict_get "GOOGLE_APPLICATION_CREDENTIALS_JSON" (environ st)) with
      | None =>
          (print "GOOGLE_APPLICATION_CREDENTIALS_JSON not set; skipping upload." st,
           Returned)
      | Some creds_json =>
          let st1 := write_text creds_path creds_json st in
          let st2 := setenv "GOOGLE_APPLICATION_CREDENTIALS" creds_path st1 in
          if client_ok w then
            if reports_exist w then
              let prefix := "uncertainty_reports/" ++ today w in
              match upload_all w bucket_name prefix (entries w) st2 with
              | (st3, Returned) =>
                  (print "Upload complete." (unlink creds_path st3), Returned)
              | (st3, Failed) => (st3, Failed)
              end
            else (print ("Reports dir " ++ report_dir w ++ " not found; nothing to upload.") st2,
                  Returned)
          else (st2, Failed)
      end
  end.

End Upload.

(** ** Notions the properties are stated with *)

(** Every score of a result lies between 1 and 10. *)
Definition scores_bounded (result : dict record) : Prop :=
  forall k r, In (k, r) result -> 1 <= affluence_score r <= 10.

Definition is_list (v : pyval) : bool :=
  match v with
  | PList _ => true
  | _ => false
  end.

(** The example text of the specification and the mapping it must give. *)
Definition soho_text : string :=
  "Sure! ```json" ++ newline ++
  q "{'mappings':[{'original_name':'SoHo','sub_region':'Lower Manhattan','affluence_score':'9'},{'original_name':'Flatbush','affluence_score':150}]}"
  ++ newline ++ "```".

Definition soho_result : dict record :=
  [("SoHo", mk_record "Lower Manhattan" 9); ("Flatbush", mk_record "Unknown" 10)].

(** A document with scores below and above the range. *)
Definition wide_scores_text : string :=
  q "{'mappings':[{'original_name':'a','affluence_score':-3},{'original_name':'b','affluence_score':0},{'original_name':'c','affluence_score':15},{'original_name':'d','affluence_score':150},{'original_name':'e','affluence_score':999}]}".

(** A document with fractional scores. *)
Definition fractional_scores_text : string :=
  q "{'mappings':[{'original_name':'a','affluence_score':7.9},{'original_name':'b','affluence_score':0.5},{'original_name':'c','affluence_score':-2.5},{'original_name':'d','affluence_score':10.99}]}".

(** A score that is absent, [null] or a word. *)
Definition missing_scores_text : string :=
  q "{'mappings':[{'original_name':'a'},{'original_name':'b','affluence_score':null},{'original_name':'c','affluence_score':'high'}]}".

(** The score of an element is one [coerce_score] gives 5 for: the key is
    absent, or holds [null], or holds a value on which [int] raises
    [TypeError] or [ValueError]. *)
Definition score_defaulted (d : dict pyval) : Prop :=
  dict_get "affluence_score" d = None
  \/ dict_get "affluence_score" d = Some PNone
  \/ (exists v, dict_get "affluence_score" d = Some v /\ py_int v = Raise TypeError)
  \/ (exists v msg, dict_get "affluence_score" d = Some v /\ py_int v = Raise (ValueError msg)).

(** A run of the upload script with both variables set and no reports
    directory. *)
Definition configured : Upload.state :=
  Upload.mk_state []
    [("GCS_BUCKET", "reports-bucket");
     ("GOOGLE_APPLICATION_CREDENTIALS_JSON", "{secret key}")]
    [] [].

Definition no_reports_dir : Upload.world :=
  Upload.mk_world true "/app/reports" false [] (fun _ => true) "2024-05-01".

(** A run in which the upload of the first report fails. *)
Definition failing_upload : Upload.world :=
  Upload.mk_world true "/app/reports" true [("report.md", true)] (fun _ => false)
    "2024-05-01".

(** Every upload of the run succeeds. *)
Definition uploads_succeed (w : Upload.world) : Prop :=
  forall name, In (name, true) (Upload.entries w) -> Upload.upload_ok w name = true.

(** The key an element is stored under, when it is stored: the element is
    an object and its [original_name] is there and not [null]. *)
Definition entry_key (item : pyval) : option string :=
  match item with
  | PDict d =>
      match get_default d "original_name" PNone with
      | PNone => None
      | name => Some (py_str name)
      end
  | _ => None
  end.

Definition entry_keys (items : list pyval) : list string :=
  flat_map (fun item => match entry_key item with Some k => [k] | None => [] end) items.

(** The score of the element is an infinite float. *)
Definition infinite_score (item : pyval) : bool :=
  match item with
  | PDict d =>
      match get_default d "affluence_score" (PInt 5) with
      | PFloat (S754_infinity _) => true
      | _ => false
      end
  | _ => false
  end.

(** A document with the same name twice. *)
Definition twice_text : string :=
  q "{'mappings':[{'original_name':'a','affluence_score':1},{'original_name':'a','affluence_score':2}]}".

Definition twice_items : list pyval :=
  [PDict [("original_name", PStr "a"); ("affluence_score", PInt 1)];
   PDict [("original_name", PStr "a"); ("affluence_score", PInt 2)]].

(** Every character of [s] is whitespace. *)
Fixpoint all_space (s : string) : bool :=
  match s with
  | EmptyString => true
  | String c s' => isspace c && all_space s'
  end.

(** The text [t] in a fenced block: three backticks, the tag, [t], three
    backticks, with whitespace [w1] to [w4] around each part. *)
Definition fenced (tag w1 w2 w3 w4 t : string) : string :=
  w1 ++ "```" ++ tag ++ w2 ++ t ++ w3 ++ "```" ++ w4.


(** [r] is what is left of [s] after some first part of it. *)
Definition suffix (r s : string) : Prop := exists pre, s = pre ++ r.

(** An object in a fenced block under the tag [json]. *)
Definition plain_object_text : string := q "{'mappings':[{'original_name':'a'}]}".

(** ** The rest of [llm_client.py] *)

(** *** [ollama_available] *)

(** Lines 11 to 16, on what [ollama.list()] does: an exception (of the
    import or of the call) gives [False]; so do a missing, [None] or empty
    [models]. *)
Definition ollama_available (listing : outcome list_response) : bool :=
  match listing with
  | Return (Some (_ :: _)) => true
  | _ => false
  end.

(** *** [get_neighborhood_data] *)

(** The keyword arguments of [ollama.chat]: the model, the contents of the
    system and of the user message, and the temperature of [options]. *)
Record chat_request : Type := mk_request {
  req_model : string;
  req_system : string;
  req_user : string;
  req_temperature : Z
}.

Definition system_prompt : string :=
  "You are a NYC real estate analyst. Map each neighborhood to a broader sub-region (e.g., Lower Manhattan, Upper East Side, Brooklyn Heights) and an affluence score 1-10 (1=least affluent, 10=most affluent). Use original_name exactly as given.".

Definition user_prompt (neighborhoods : list string) : string :=
  "Return a JSON object with a 'mappings' array. Each item: original_name, sub_region, affluence_score (1-10). Neighborhoods: "
  ++ join ", " neighborhoods.

(** The model [_pick_model()] is asked for. *)
Definition default_model : string := "llama3.1:8b".

Section Client.

(** [json.loads], what [ollama.list()] does, and what [ollama.chat] does
    with a request: it raises, or answers a message whose [content] is a
    string or is missing or [None]. *)
Variable loads : string -> outcome pyval.
Variable listing : outcome list_response.
Variable chat : chat_request -> outcome (option string).

(** Line 87: [getattr(response.message, "content", None) or ""]. *)
Definition reply_content (reply : option string) : string :=
  match reply with
  | Some s => s
  | None => ""
  end.

Definition get_neighborhood_data (neighborhoods : list string) (model : option string)
  : outcome (dict record) :=
  m <- match model with
       | Some m => Return m
       | None => resp <- listing ;; Return (_pick_model resp default_model)
       end ;;
  reply <- chat (mk_request m system_prompt (user_prompt neighborhoods) 0) ;;
  _parse_mappings_json loads (reply_content reply).

End Client.

(** ** Notions the further properties are stated with *)

(** What line 26 looks for in a name: the preferred name up to its first
    colon, which is all of it when it has none. *)
Definition sought (preferred : string) : string := split_head ":" preferred.

(** The names of the files one run of the loop of lines 33 to 37 uploads:
    the regular files of the listing, up to the first whose upload fails. *)
Fixpoint sent (w : Upload.world) (fs : list (string * bool)) : list string :=
  match fs with
  | [] => []
  | (name, is_file) :: rest =>
      if is_file then
        if Upload.upload_ok w name then name :: sent w rest else []
      else sent w rest
  end.

(** The object a file is stored as: the bucket, and the key
    [uncertainty_reports/<date>/<name>]. *)
Definition stored_as (w : Upload.world) (bucket_name name : string) : string * string :=
  (bucket_name, ("uncertainty_reports/" ++ Upload.today w) ++ "/" ++ name).

(** Both variables are set, to [b] and [c]. *)
Definition configured_with (st : Upload.state) (b c : string) : Prop :=
  Upload.nonempty (dict_get "GCS_BUCKET" (Upload.environ st)) = Some b
  /\ Upload.nonempty (dict_get "GOOGLE_APPLICATION_CREDENTIALS_JSON" (Upload.environ st))
     = Some c.

(** One of the two variables is missing or empty. *)
Definition unconfigured (st : Upload.state) : Prop :=
  Upload.nonempty (dict_get "GCS_BUCKET" (Upload.environ st)) = None
  \/ Upload.nonempty (dict_get "GOOGLE_APPLICATION_CREDENTIALS_JSON" (Upload.environ st))
     = None.

(** The run does not get to line 38: the client cannot be built, the
    reports directory is missing, or the upload of a regular file fails. *)
Definition cut_short (w : Upload.world) : Prop :=
  Upload.client_ok w = false
  \/ Upload.reports_exist w = false
  \/ (exists name, In (name, true) (Upload.entries w) /\ Upload.upload_ok w name = false).

(** A run over a directory with a sub-directory and two reports. *)
Definition two_reports : Upload.world :=
  Upload.mk_world true "/app/reports" true
    [("figures", false); ("report.md", true); ("summary.json", true)]
    (fun _ => true) "2024-05-01".

(** The same directory when the upload of the second report fails. *)
Definition second_upload_fails : Upload.world :=
  Upload.mk_world true "/app/reports" true
    [("figures", false); ("report.md", true); ("summary.json", true)]
    (fun name => (name =? "report.md")%string) "2024-05-01".

(** A process that has the bucket but no credentials. *)
Definition no_credentials : Upload.state :=
  Upload.mk_state [] [("GCS_BUCKET", "reports-bucket")] [] [].

(** The element is stored: it is an object with a name that is not [null]. *)
Definition named (item : pyval) : bool :=
  match entry_key item with
  | Some _ => true
  | None => false
  end.

(** A document whose array holds, around one named element, a number, an
    object without a name and an object whose name is [null] and whose
    score is infinite. *)
Definition noisy_text : string :=
  q "{'mappings':[7,{'sub_region':'x'},{'original_name':'a','affluence_score':3},{'original_name':null,'affluence_score':1e999}]}".

Definition noisy_items : list pyval :=
  [PInt 7;
   PDict [("sub_region", PStr "x")];
   PDict [("original_name", PStr "a"); ("affluence_score", PInt 3)];
   PDict [("original_name", PNone); ("affluence_score", PFloat (S754_infinity false))]].

(** A document with an empty [mappings] and entries under [mapping]. *)
Definition fallback_text : string :=
  q "{'mappings':[],'mapping':[{'original_name':'a','affluence_score':3}]}".

(** A reply that only says what it will not do. *)
Definition prose_text : string := "I cannot classify these neighborhoods.".

(** A chat service that always answers [reply]. *)
Definition answers (reply : option string) (request : chat_request) : outcome (option string) :=
  Return reply.

(** A fenced block with text around it: [pre], three backticks, the tag,
    [t] between whitespace [w2] and [w3], three backticks, [post]. *)
Definition framed (pre post tag w2 w3 t : string) : string :=
  pre ++ "```" ++ tag ++ w2 ++ t ++ w3 ++ "```" ++ post.

(** The part of the pattern that ends group 1 and the match. *)
Definition closing : list node := [Lit "}"; Close; Many isspace; Lit "```"].

(** ** Notions for the revised statements *)

(** The float has a value: it is a zero or a finite number. *)
Definition is_finite (f : spec_float) : bool :=
  match f with
  | S754_zero _ => true
  | S754_finite _ _ _ => true
  | _ => false
  end.

(** [z] is the float [f] with its fractional part dropped: 0 for a zero,
    and for plus or minus [m * 2 ^ e] the largest integer [a] not above
    [m * 2 ^ e], with the sign of the float. *)
Definition integer_part (f : spec_float) (z : Z) : Prop :=
  match f with
  | S754_zero _ => z = 0
  | S754_finite s m e =>
      exists a : Z,
        0 <= a
        /\ a * 2 ^ Z.max 0 (- e) <= Z.pos m * 2 ^ Z.max 0 e < (a + 1) * 2 ^ Z.max 0 (- e)
        /\ z = (if s then - a else a)
  | _ => False
  end.

(** The score stored for the integer [z]: the nearest of 1 to 10. *)
Definition nearest_in_range (z : Z) : Z :=
  if z <? 1 then 1 else if 10 <? z then 10 else z.

(** A score written with more digits than a float holds: the decoder
    reads it as 7.0. *)
Definition long_fraction_text : string :=
  q "{'mappings':[{'original_name':'a','affluence_score':6.99999999999999999999}]}".

(** A score with a fraction that is too large for a float. *)
Definition huge_fraction_text : string :=
  q "{'mappings':[{'original_name':'a','affluence_score':1.5e999}]}".

(** Documents with a fenced block inside one of their strings. *)
Definition fence_in_mappings_text : string := q "{'mappings':'```{}```'}".

Definition fence_in_element_text : string :=
  q "{'mappings':[{'original_name':'a','sub_region':'```{}```'}]}".

(** * Properties *)

(** ** Dictionaries *)

Section DictFacts.

Context {V : Type}.

Lemma dict_get_set_same (k : string) (v : V) (d : dict V) :
  dict_get k (dict_set k v d) = Some v.
Proof.
  induction d as [|[k' v'] d IH]; simpl.
  - now rewrite String.eqb_refl.
  - destruct (String.eqb k k') eqn:E; simpl; rewrite E; auto.
Qed.

Lemma dict_get_set_other (k k' : string) (v : V) (d : dict V) :
  k <> k' -> dict_get k' (dict_set k v d) = dict_get k' d.
Proof.
  intros Hne. induction d as [|[k0 v0] d IH]; simpl.
  - destruct (String.eqb k' k) eqn:E; auto.
    apply String.eqb_eq in E. congruence.
  - destruct (String.eqb k k0) eqn:E; simpl.
    + apply String.eqb_eq in E. subst k0.
      destruct (String.eqb k' k) eqn:E'; auto.
      apply String.eqb_eq in E'. congruence.
    + now rewrite IH.
Qed.

Lemma in_dict_set (k : string) (v : V) (d : dict V) (kv : string * V) :
  In kv (dict_set k v d) -> kv = (k, v) \/ In kv d.
Proof.
  induction d as [|[k0 v0] d IH]; simpl.
  - intuition.
  - destruct (String.eqb k k0) eqn:E; simpl.
    + apply String.eqb_eq in E. subst k0. intuition.
    + intuition.
Qed.

Lemma in_keys_dict_set (k x : string) (v : V) (d : dict V) :
  In x (dict_keys (dict_set k v d)) <-> x = k \/ In x (dict_keys d).
Proof.
  unfold dict_keys. induction d as [|[k0 v0] d IH]; simpl.
  - intuition.
  - destruct (String.eqb k k0) eqn:E; simpl.
    + apply String.eqb_eq in E. subst k0. intuition.
    + rewrite IH. intuition.
Qed.

Lemma nodup_keys_dict_set (k : string) (v : V) (d : dict V) :
  NoDup (dict_keys d) -> NoDup (dict_keys (dict_set k v d)).
Proof.
  unfold dict_keys. induction d as [|[k0 v0] d IH]; simpl; intros Hnd.
  - constructor; [intros [] | constructor].
  - inversion Hnd as [|? ? Hnot Hrest]; subst.
    destruct (String.eqb k k0) eqn:E; simpl.
    + constructor; assumption.
    + constructor; [|auto].
      intros Hin. apply (in_keys_dict_set k k0 v d) in Hin.
      destruct Hin as [->|Hin]; [|contradiction].
      now rewrite String.eqb_refl in E.
Qed.

End DictFacts.

(** ** The loop of the interpreter *)

Lemma clamp_bounds (z : Z) : 1 <= clamp z <= 10.
Proof. unfold clamp. lia. Qed.

Lemma clamp_below (z : Z) : z < 1 -> clamp z = 1.
Proof. unfold clamp. lia. Qed.

Lemma clamp_above (z : Z) : 10 < z -> clamp z = 10.
Proof. unfold clamp. lia. Qed.

Lemma clamp_inside (z : Z) : 1 <= z <= 10 -> clamp z = z.
Proof. unfold clamp. lia. Qed.

(** What an element with a name does to the result. *)
Lemma store_item_named (result : dict record) (d : dict pyval) (name : pyval) :
  dict_get "original_name" d = Some name ->
  name <> PNone ->
  store_item result (PDict d) =
    (aff1 <- coerce_score (get_default d "affluence_score" (PInt 5)) ;;
     Return (dict_set (py_str name)
               (mk_record (py_str (get_default d "sub_region" (PStr "Unknown")))
                  (clamp aff1)) result)).
Proof.
  intros Hname Hnn. unfold store_item.
  replace (get_default d "original_name" PNone) with name
    by (unfold get_default; now rewrite Hname).
  destruct name; try reflexivity. congruence.
Qed.

(** What the loop body does, case by case. *)
Lemma store_item_cases (result : dict record) (item : pyval) :
  store_item result item = Return result
  \/ (exists d name,
        item = PDict d /\ dict_get "original_name" d = Some name /\ name <> PNone).
Proof.
  destruct item as [| | | | | |d]; auto.
  destruct (dict_get "original_name" d) as [name|] eqn:E.
  - destruct name;
      try (right; exists d; eexists; repeat split; [exact E | discriminate]).
    left. unfold store_item, get_default. now rewrite E.
  - left. unfold store_item, get_default. now rewrite E.
Qed.

Lemma store_item_bounded (result r' : dict record) (item : pyval) :
  scores_bounded result -> store_item result item = Return r' -> scores_bounded r'.
Proof.
  intros Hb Hs.
  destruct (store_item_cases result item) as [Hsame|(d & name & -> & Hn & Hnn)].
  - rewrite Hsame in Hs. injection Hs as <-. exact Hb.
  - rewrite (store_item_named _ _ _ Hn Hnn) in Hs.
    destruct (coerce_score _) as [z|]; simpl in Hs; [|discriminate].
    injection Hs as <-. intros k r Hin.
    apply in_dict_set in Hin. destruct Hin as [Heq|Hin]; [|eauto].
    injection Heq as _ ->. simpl. apply clamp_bounds.
Qed.

Lemma for_items_bounded (items : list pyval) :
  forall result r', scores_bounded result ->
    for_items result items = Return r' -> scores_bounded r'.
Proof.
  induction items as [|item rest IH]; simpl; intros result r' Hb Hf.
  - injection Hf as <-. exact Hb.
  - destruct (store_item result item) as [r1|] eqn:E; simpl in Hf; [|discriminate].
    eapply IH; [|eassumption]. eapply store_item_bounded; eassumption.
Qed.

Lemma read_mappings_bounded (data : pyval) (r : dict record) :
  read_mappings data = Return r -> scores_bounded r.
Proof.
  unfold read_mappings. destruct (attr_get data) as [d|]; simpl; [|discriminate].
  destruct (py_or _ _); try discriminate.
  apply for_items_bounded. intros k r0 [].
Qed.

(** The example of the specification, run through the whole function. *)
Example soho_example : _parse_mappings_json json_loads soho_text = Return soho_result.
Proof. vm_compute. reflexivity. Qed.

(** C1.  Whenever the interpreter returns, on any text and with any
    decoder, every record of the mapping it returns has an integer score
    between 1 and 10. *)
Theorem parse_scores_in_range (loads : string -> outcome pyval) (text : string)
    (result : dict record) :
  _parse_mappings_json loads text = Return result ->
  forall name r, In (name, r) result -> 1 <= affluence_score r <= 10.
Proof.
  unfold _parse_mappings_json. intros H.
  destruct (loads (candidate text)) as [data|]; simpl in H; [|discriminate].
  exact (read_mappings_bounded data result H).
Qed.

Lemma parse_scores_in_range_witness :
  _parse_mappings_json json_loads soho_text = Return soho_result
  /\ In ("Flatbush", mk_record "Unknown" 10) soho_result
  /\ 1 <= affluence_score (mk_record "Unknown" 10) <= 10.
Proof.
  split; [vm_compute; reflexivity|].
  split; [right; left; reflexivity|].
  refine (parse_scores_in_range json_loads soho_text soho_result _
            "Flatbush" (mk_record "Unknown" 10) _).
  - vm_compute. reflexivity.
  - right. left. reflexivity.
Defined.

(** ** The mappings key *)

(** C2, counterexample.  The text [{}] is a JSON document in which neither
    key holds an array, and the interpreter returns the empty mapping. *)
Lemma empty_object_returns_empty_mapping :
  json_loads (q "{}") = Return (PDict [])
  /\ _parse_mappings_json json_loads (q "{}") = Return [].
Proof. split; vm_compute; reflexivity. Qed.

(** A falsy value under [mappings] is passed over like a missing key. *)
Example falsy_mappings_returns_empty_mapping :
  _parse_mappings_json json_loads (q "{'mappings': 0}") = Return []
  /\ _parse_mappings_json json_loads (q "{'mappings': null}") = Return [].
Proof. split; vm_compute; reflexivity. Qed.

(** A document that is not an object has no [get]. *)
Example array_document_raises_attribute_error :
  _parse_mappings_json json_loads "[1]" = Raise AttributeError.
Proof. vm_compute. reflexivity. Qed.

(** Line 39: the first truthy value of the two, or the empty list. *)
Lemma py_or_chain (a b : pyval) :
  py_or (py_or a b) (PList []) =
    if truthy a || truthy b then (if truthy a then a else b) else PList [].
Proof.
  unfold py_or.
  destruct (truthy a) eqn:Ea; simpl.
  - now rewrite Ea.
  - destruct (truthy b); reflexivity.
Qed.

(** What is decoded is the candidate text, not the input: an input that
    is itself an object with a truthy value under [mappings] that is not
    an array, and with a fenced block inside that value, is replaced by
    the block, and the empty mapping comes back. *)
Example fence_in_mappings_returns_empty_mapping :
  json_loads fence_in_mappings_text = Return (PDict [("mappings", PStr "```{}```")])
  /\ candidate fence_in_mappings_text = "{}"
  /\ _parse_mappings_json json_loads fence_in_mappings_text = Return [].
Proof. repeat split; vm_compute; reflexivity. Qed.

(** C2, as amended.  The statement is about the candidate text, the text
    the interpreter hands to the decoder: the input stripped, or group 1
    of the fenced block the pattern finds in it.  When the candidate text
    is decoded to a JSON object in which neither [mappings] nor [mapping]
    holds an array: if one of the two holds a truthy value, the
    interpreter raises [ValueError] with the message
    [Expected 'mappings' array]; if both keys are absent, it returns the
    empty mapping. *)
Theorem mappings_not_an_array (loads : string -> outcome pyval) (text : string)
    (d : dict pyval) :
  loads (candidate text) = Return (PDict d) ->
  is_list (get_default d "mappings" PNone) = false ->
  is_list (get_default d "mapping" PNone) = false ->
  (truthy (get_default d "mappings" PNone) || truthy (get_default d "mapping" PNone) = true ->
   _parse_mappings_json loads text = Raise (ValueError "Expected 'mappings' array"))
  /\ (dict_get "mappings" d = None -> dict_get "mapping" d = None ->
      _parse_mappings_json loads text = Return []).
Proof.
  intros Hload Ha Hb. unfold _parse_mappings_json. rewrite Hload. simpl.
  unfold read_mappings. simpl. rewrite py_or_chain. split.
  - intros Ht. rewrite Ht.
    destruct (truthy (get_default d "mappings" PNone)).
    + destruct (get_default d "mappings" PNone); try reflexivity; discriminate.
    + destruct (get_default d "mapping" PNone); try reflexivity; discriminate.
  - intros Hm1 Hm2. unfold get_default. rewrite Hm1, Hm2. reflexivity.
Qed.

Lemma mappings_not_an_array_witness :
  json_loads (candidate (q "{'mappings': 'abc'}")) = Return (PDict [("mappings", PStr "abc")])
  /\ _parse_mappings_json json_loads (q "{'mappings': 'abc'}")
     = Raise (ValueError "Expected 'mappings' array").
Proof.
  split; [vm_compute; reflexivity|].
  refine (proj1 (mappings_not_an_array json_loads (q "{'mappings': 'abc'}")
                   [("mappings", PStr "abc")] _ _ _) _);
    vm_compute; reflexivity.
Defined.

(** ** The model selector *)

(** C3, at the failing input.  The preferred model is listed second, after
    another model of its family: the first is returned. *)
Theorem pick_model_returns_family_member_first :
  _pick_model (Some [Some "llama3.1:70b"; Some "llama3.1:8b"]) "llama3.1:8b"
  = "llama3.1:70b".
Proof. reflexivity. Qed.

(** ** The fields of an element *)

(** C5.  An element whose score [int] turns into an integer below 1 or
    above 10 is never rejected: the loop body returns, and when the element
    has a name it is stored with 1 for a score below 1 and with 10 for a
    score above 10. *)
Theorem out_of_range_score_is_clamped (result : dict record) (d : dict pyval) (z : Z) :
  py_int (get_default d "affluence_score" (PInt 5)) = Return z ->
  z < 1 \/ 10 < z ->
  exists r',
    store_item result (PDict d) = Return r'
    /\ forall name,
         dict_get "original_name" d = Some name ->
         name <> PNone ->
         dict_get (py_str name) r' =
           Some (mk_record (py_str (get_default d "sub_region" (PStr "Unknown")))
                   (if z <? 1 then 1 else 10)).
Proof.
  intros Hint Hz.
  destruct (store_item_cases result (PDict d)) as [Hskip|(d' & name & Hd & Hn & Hnn)].
  - exists result. split; [exact Hskip|]. intros name Hn Hnn.
    rewrite (store_item_named _ _ _ Hn Hnn) in Hskip.
    unfold coerce_score in Hskip. rewrite Hint in Hskip. cbn [bind] in Hskip.
    injection Hskip as Hskip. rewrite <- Hskip at 1. rewrite dict_get_set_same.
    do 2 f_equal.
    destruct (Z.ltb_spec z 1); [apply clamp_below | apply clamp_above]; lia.
  - injection Hd as <-.
    rewrite (store_item_named _ _ _ Hn Hnn). unfold coerce_score. rewrite Hint.
    cbn [bind]. eexists. split; [reflexivity|]. intros name' Hn' _.
    rewrite Hn in Hn'. injection Hn' as <-. rewrite dict_get_set_same. do 2 f_equal.
    destruct (Z.ltb_spec z 1); [apply clamp_below | apply clamp_above]; lia.
Qed.

Lemma out_of_range_score_is_clamped_witness :
  exists r',
    store_item [] (PDict [("original_name", PStr "Flatbush"); ("affluence_score", PInt 150)])
      = Return r'
    /\ forall name,
         dict_get "original_name"
           [("original_name", PStr "Flatbush"); ("affluence_score", PInt 150)] = Some name ->
         name <> PNone ->
         dict_get (py_str name) r' = Some (mk_record "Unknown" 10).
Proof.
  refine (out_of_range_score_is_clamped []
            [("original_name", PStr "Flatbush"); ("affluence_score", PInt 150)] 150 _ _).
  - reflexivity.
  - right. lia.
Defined.

(** The scores the claim names, through the whole function. *)
Example wide_scores_example :
  _parse_mappings_json json_loads wide_scores_text =
    Return [("a", mk_record "Unknown" 1); ("b", mk_record "Unknown" 1);
            ("c", mk_record "Unknown" 10); ("d", mk_record "Unknown" 10);
            ("e", mk_record "Unknown" 10)].
Proof. vm_compute. reflexivity. Qed.

(** C6, counterexample.  An element whose [sub_region] is [null] is stored
    with the text [None], not with [Unknown]. *)
Lemma null_sub_region_is_stored_as_None :
  _parse_mappings_json json_loads
    (q "{'mappings':[{'original_name':'a','sub_region':null}]}")
  = Return [("a", mk_record "None" 5)].
Proof. vm_compute. reflexivity. Qed.

Lemma coerce_score_defaulted (d : dict pyval) :
  score_defaulted d -> coerce_score (get_default d "affluence_score" (PInt 5)) = Return 5.
Proof.
  unfold get_default, coerce_score.
  intros [H|[H|[(v & H & Hv)|(v & msg & H & Hv)]]]; rewrite H; try reflexivity;
    now rewrite Hv.
Qed.

(** C6, as amended.  For an element with a name: if [sub_region] is absent
    the stored sub-region is [Unknown]; if [affluence_score] is absent,
    [null], or a value on which [int] raises [TypeError] or [ValueError],
    the stored score is 5. *)
Theorem missing_fields_take_defaults (result : dict record) (d : dict pyval)
    (name : pyval) :
  dict_get "original_name" d = Some name ->
  name <> PNone ->
  (dict_get "sub_region" d = None ->
   store_item result (PDict d) =
     (aff <- coerce_score (get_default d "affluence_score" (PInt 5)) ;;
      Return (dict_set (py_str name) (mk_record "Unknown" (clamp aff)) result)))
  /\ (score_defaulted d ->
      store_item result (PDict d) =
        Return (dict_set (py_str name)
                  (mk_record (py_str (get_default d "sub_region" (PStr "Unknown"))) 5)
                  result)).
Proof.
  intros Hn Hnn. rewrite (store_item_named _ _ _ Hn Hnn). split.
  - intros Hsub. unfold get_default at 2. rewrite Hsub. reflexivity.
  - intros Hs. rewrite (coerce_score_defaulted d Hs). reflexivity.
Qed.

Lemma missing_fields_take_defaults_witness :
  store_item [] (PDict [("original_name", PStr "a"); ("affluence_score", PStr "high")])
  = Return [("a", mk_record "Unknown" 5)].
Proof.
  refine (proj2 (missing_fields_take_defaults []
                   [("original_name", PStr "a"); ("affluence_score", PStr "high")]
                   (PStr "a") _ _) _).
  - reflexivity.
  - discriminate.
  - right. right. right. exists (PStr "high"). eexists. split; reflexivity.
Defined.

Example missing_scores_example :
  _parse_mappings_json json_loads missing_scores_text =
    Return [("a", mk_record "Unknown" 5); ("b", mk_record "Unknown" 5);
            ("c", mk_record "Unknown" 5)].
Proof. vm_compute. reflexivity. Qed.

(** C7, at the failing input.  The score [1e999] is read as an infinite
    float; [int] raises [OverflowError] on it, which line 52 does not
    catch, and the whole call fails. *)
Theorem infinite_score_raises_overflow_error :
  _parse_mappings_json json_loads
    (q "{'mappings':[{'original_name':'a','affluence_score':1e999}]}")
  = Raise OverflowError.
Proof. vm_compute. reflexivity. Qed.

Example infinity_word_raises_overflow_error :
  _parse_mappings_json json_loads
    (q "{'mappings':[{'original_name':'a','affluence_score':Infinity}]}")
  = Raise OverflowError.
Proof. vm_compute. reflexivity. Qed.

Lemma trunc_finite_spec (s : bool) (m : positive) (e : Z) :
  exists a : Z,
    0 <= a
    /\ a * 2 ^ Z.max 0 (- e) <= Z.pos m * 2 ^ Z.max 0 e < (a + 1) * 2 ^ Z.max 0 (- e)
    /\ trunc_finite s m e = (if s then - a else a).
Proof.
  unfold trunc_finite. destruct (Z.leb_spec 0 e) as [He|He].
  - exists (Z.pos m * 2 ^ e).
    replace (Z.max 0 (- e)) with 0 by lia. replace (Z.max 0 e) with e by lia.
    assert (0 < 2 ^ e) by (apply Z.pow_pos_nonneg; lia).
    change (2 ^ 0) with 1. repeat split; try reflexivity; nia.
  - exists (Z.pos m / 2 ^ (- e)).
    replace (Z.max 0 (- e)) with (- e) by lia. replace (Z.max 0 e) with 0 by lia.
    assert (Hp : 0 < 2 ^ (- e)) by (apply Z.pow_pos_nonneg; lia).
    change (2 ^ 0) with 1. rewrite Z.mul_1_r.
    pose proof (Z.div_pos (Z.pos m) (2 ^ (- e)) ltac:(lia) Hp) as Hq.
    pose proof (Z.mul_div_le (Z.pos m) (2 ^ (- e)) Hp) as Hle.
    pose proof (Z.mul_succ_div_gt (Z.pos m) (2 ^ (- e)) Hp) as Hgt.
    repeat split; try reflexivity; try assumption; nia.
Qed.

(** C10, counterexample.  The score [6.99999999999999999999] has the
    integer part 6; the decoder reads it as the float 7.0 and 7 is stored.
    The score [1.5e999] has a fractional part in its text; the decoder
    reads it as an infinite float and the call raises [OverflowError]. *)
Lemma long_fraction_is_rounded_before_truncation :
  json_loads "6.99999999999999999999"
    = Return (PFloat (S754_finite false 7881299347898368 (-50)))
  /\ _parse_mappings_json json_loads long_fraction_text
     = Return [("a", mk_record "Unknown" 7)]
  /\ _parse_mappings_json json_loads huge_fraction_text = Raise OverflowError.
Proof. repeat split; vm_compute; reflexivity. Qed.

Lemma nearest_in_range_clamp (z : Z) : clamp z = nearest_in_range z.
Proof.
  unfold clamp, nearest_in_range.
  destruct (Z.ltb_spec z 1); [lia|]. destruct (Z.ltb_spec 10 z); lia.
Qed.

Lemma py_int_finite (f : spec_float) :
  is_finite f = true -> exists z, py_int (PFloat f) = Return z /\ integer_part f z.
Proof.
  destruct f as [s | s | | s m e]; try discriminate; intros _.
  - exists 0. split; reflexivity.
  - destruct (trunc_finite_spec s m e) as (a & Ha0 & Hab & Ht).
    exists (trunc_finite s m e). split; [reflexivity|].
    exists a. repeat split; assumption || apply Hab.
Qed.

(** C10, as amended.  An element with a name whose score the decoder has
    read as a float with a value (a zero or a finite number) is stored
    with the integer part of that float, towards zero, brought into 1 to
    10: with [z] the float without its fractional part, the stored score
    is 1 when [z] is below 1, 10 when [z] is above 10, and [z] otherwise.
    It is not rounded, not replaced by 5, and the element is not
    rejected. *)
Theorem fractional_score_is_truncated (result : dict record) (d : dict pyval)
    (name : pyval) (f : spec_float) :
  dict_get "original_name" d = Some name ->
  name <> PNone ->
  dict_get "affluence_score" d = Some (PFloat f) ->
  is_finite f = true ->
  exists z : Z,
    integer_part f z
    /\ store_item result (PDict d) =
         Return (dict_set (py_str name)
                   (mk_record (py_str (get_default d "sub_region" (PStr "Unknown")))
                      (if z <? 1 then 1 else if 10 <? z then 10 else z))
                   result).
Proof.
  intros Hn Hnn Hs Hf. rewrite (store_item_named _ _ _ Hn Hnn).
  destruct (py_int_finite f Hf) as (z & Hint & Hz).
  exists z. split; [exact Hz|].
  unfold get_default at 1. rewrite Hs. unfold coerce_score. rewrite Hint.
  cbn [bind]. rewrite nearest_in_range_clamp. reflexivity.
Qed.

(** The float [7.9] is [8894609264056730 * 2 ^ -50]; its integer part is 7. *)
Lemma fractional_score_is_truncated_witness :
  exists z : Z,
    integer_part (S754_finite false 8894609264056730 (-50)) z
    /\ store_item []
         (PDict [("original_name", PStr "a");
                 ("affluence_score", PFloat (S754_finite false 8894609264056730 (-50)))])
       = Return [("a", mk_record "Unknown"
                         (if z <? 1 then 1 else if 10 <? z then 10 else z))].
Proof.
  refine (fractional_score_is_truncated []
            [("original_name", PStr "a");
             ("affluence_score", PFloat (S754_finite false 8894609264056730 (-50)))]
            (PStr "a") (S754_finite false 8894609264056730 (-50)) _ _ _ _).
  - reflexivity.
  - discriminate.
  - reflexivity.
  - reflexivity.
Defined.

(** The integer part of a float is one integer only, so the stored score
    is settled by the float. *)
Lemma integer_part_unique (f : spec_float) (z z' : Z) :
  integer_part f z -> integer_part f z' -> z = z'.
Proof.
  destruct f as [s | s | | s m e]; cbn [integer_part]; try contradiction.
  - congruence.
  - intros (a & Ha & Hab & ->) (a' & Ha' & Hab' & ->).
    assert (0 < 2 ^ Z.max 0 (- e)) by (apply Z.pow_pos_nonneg; lia).
    assert (a = a') by nia. now subst a'.
Qed.

Example integer_part_of_7_9 : integer_part (S754_finite false 8894609264056730 (-50)) 7.
Proof. exists 7. cbn. lia. Qed.

(** Fractional scores through the whole function: 7.9 gives 7, 0.5 gives
    1, -2.5 gives 1 and 10.99 gives 10. *)
Example fractional_scores_example :
  _parse_mappings_json json_loads fractional_scores_text =
    Return [("a", mk_record "Unknown" 7); ("b", mk_record "Unknown" 1);
            ("c", mk_record "Unknown" 1); ("d", mk_record "Unknown" 10)].
Proof. vm_compute. reflexivity. Qed.

Example float_of_7_9 :
  json_loads "7.9" = Return (PFloat (S754_finite false 8894609264056730 (-50))).
Proof. vm_compute. reflexivity. Qed.

(** ** The upload script *)

(** C9, at the failing input.  With both variables set and no reports
    directory, the run returns at line 29 and the file that holds the
    credentials is still there. *)
Theorem credentials_file_left_behind :
  snd (Upload.main no_reports_dir configured) = Upload.Returned
  /\ dict_get Upload.creds_path (Upload.disk (fst (Upload.main no_reports_dir configured)))
     = Some "{secret key}".
Proof. split; reflexivity. Qed.

(** The file also stays when an upload fails. *)
Example credentials_file_left_after_failure :
  snd (Upload.main failing_upload configured) = Upload.Failed
  /\ Upload.exists_file Upload.creds_path (fst (Upload.main failing_upload configured)) = true.
Proof. split; reflexivity. Qed.

Lemma upload_all_disk (w : Upload.world) (b p : string) (fs : list (string * bool)) :
  forall st, Upload.disk (fst (Upload.upload_all w b p fs st)) = Upload.disk st.
Proof.
  induction fs as [|[name is_file] fs IH]; simpl; intros st; [reflexivity|].
  destruct is_file; [|apply IH].
  destruct (Upload.upload_ok w name); [|reflexivity].
  rewrite IH. reflexivity.
Qed.

Lemma upload_all_returns (w : Upload.world) (b p : string) (fs : list (string * bool)) :
  (forall name, In (name, true) fs -> Upload.upload_ok w name = true) ->
  forall st, snd (Upload.upload_all w b p fs st) = Upload.Returned.
Proof.
  induction fs as [|[name is_file] fs IH]; simpl; intros Hok st; [reflexivity|].
  destruct is_file.
  - rewrite (Hok name (or_introl eq_refl)). apply IH. intros n Hin. apply Hok. now right.
  - apply IH. intros n Hin. apply Hok. now right.
Qed.

Lemma dict_get_filter_out (path : string) (d : dict string) :
  dict_get path (filter (fun kv => negb (fst kv =? path)%string) d) = None.
Proof.
  induction d as [|[k v] d IH]; simpl; [reflexivity|].
  destruct (String.eqb k path) eqn:E; simpl; [exact IH|].
  rewrite String.eqb_sym, E. exact IH.
Qed.

(** The path that runs to the end removes the file. *)
Lemma credentials_file_removed_on_success (w : Upload.world) (st : Upload.state)
    (b c : string) :
  Upload.nonempty (dict_get "GCS_BUCKET" (Upload.environ st)) = Some b ->
  Upload.nonempty (dict_get "GOOGLE_APPLICATION_CREDENTIALS_JSON" (Upload.environ st)) = Some c ->
  Upload.client_ok w = true ->
  Upload.reports_exist w = true ->
  uploads_succeed w ->
  snd (Upload.main w st) = Upload.Returned
  /\ Upload.exists_file Upload.creds_path (fst (Upload.main w st)) = false.
Proof.
  intros Hb Hcr Hc Hr Hup. unfold Upload.main. rewrite Hb, Hcr, Hc, Hr.
  match goal with
  | |- context [Upload.upload_all ?w ?b ?p ?fs ?s] =>
      pose proof (upload_all_returns w b p fs Hup s) as Hret;
      pose proof (upload_all_disk w b p fs s) as Hdisk;
      destruct (Upload.upload_all w b p fs s) as [st3 ex]
  end.
  simpl in Hret, Hdisk. subst ex. split; [reflexivity|].
  unfold Upload.exists_file. simpl. now rewrite dict_get_filter_out.
Qed.

(** ** One entry for each name *)

Lemma coerce_score_returns (v : pyval) :
  (forall s, v <> PFloat (S754_infinity s)) -> exists z, coerce_score v = Return z.
Proof.
  intros Hfin. unfold coerce_score.
  destruct v as [| b | z | f | s | l | d]; simpl; try (eexists; reflexivity).
  - destruct f as [s | s | | s m e]; try (eexists; reflexivity).
    now contradiction (Hfin s).
  - destruct (int_of_str s); eexists; reflexivity.
Qed.

Lemma store_item_unnamed (result : dict record) (item : pyval) :
  entry_key item = None -> store_item result item = Return result.
Proof.
  destruct item as [| | | | | |d]; try reflexivity.
  unfold entry_key, store_item.
  destruct (get_default d "original_name" PNone); try discriminate. reflexivity.
Qed.

Lemma store_item_keyed (result : dict record) (item : pyval) (k : string) :
  entry_key item = Some k ->
  infinite_score item = false ->
  exists r, store_item result item = Return (dict_set k r result).
Proof.
  destruct item as [| | | | | |d]; try discriminate.
  unfold entry_key, infinite_score, store_item. intros Hk Hfin.
  destruct (coerce_score_returns (get_default d "affluence_score" (PInt 5))) as [z Hz].
  { intros s Heq. rewrite Heq in Hfin. discriminate. }
  rewrite Hz. simpl.
  destruct (get_default d "original_name" PNone); try discriminate;
    injection Hk as <-; eexists; reflexivity.
Qed.

Lemma for_items_keys (items : list pyval) :
  Forall (fun item => infinite_score item = false) items ->
  forall result,
  exists r,
    for_items result items = Return r
    /\ (NoDup (dict_keys result) -> NoDup (dict_keys r))
    /\ (forall k, In k (dict_keys r) <-> In k (dict_keys result) \/ In k (entry_keys items)).
Proof.
  induction 1 as [|item rest Hfin _ IH]; intros result; simpl.
  - exists result. intuition.
  - destruct (entry_key item) as [k|] eqn:Ek.
    + destruct (store_item_keyed result item k Ek Hfin) as [rec Hs].
      rewrite Hs. simpl.
      destruct (IH (dict_set k rec result)) as (r & Hr & Hnd & Hin).
      exists r. split; [exact Hr|]. split.
      * intros Hnd0. apply Hnd. now apply nodup_keys_dict_set.
      * intros x. rewrite Hin, in_keys_dict_set. simpl. intuition.
    + rewrite (store_item_unnamed result item Ek). simpl.
      destruct (IH result) as (r & Hr & Hnd & Hin).
      exists r. split; [exact Hr|]. split; [exact Hnd|].
      intros x. rewrite Hin. simpl. intuition.
Qed.

(** The only exception the loop body lets through is the [OverflowError]
    of [int] on an infinite float. *)
Lemma store_item_raises_only_overflow (result : dict record) (item : pyval) (e : exn) :
  store_item result item = Raise e -> e = OverflowError /\ infinite_score item = true.
Proof.
  destruct (infinite_score item) eqn:Hinf.
  - destruct item as [| | | | | |d]; try discriminate.
    unfold store_item, infinite_score, coerce_score in *.
    destruct (get_default d "affluence_score" (PInt 5)) as [| | |f| | |]; try discriminate.
    destruct f; try discriminate.
    destruct (get_default d "original_name" PNone); cbn; intros H; try discriminate;
      injection H as <-; split; reflexivity.
  - destruct (entry_key item) as [k|] eqn:Ek.
    + destruct (store_item_keyed result item k Ek Hinf) as [r Hr]. congruence.
    + rewrite (store_item_unnamed result item Ek). discriminate.
Qed.

Lemma read_mappings_only_key (items : list pyval) :
  read_mappings (PDict [("mappings", PList items)]) = for_items [] items.
Proof. destruct items; reflexivity. Qed.

(** C8, counterexample.  Two elements of the array are objects with a name
    that is not [null]; the mapping has one entry. *)
Lemma same_name_twice_gives_one_entry :
  json_loads twice_text = Return (PDict [("mappings", PList twice_items)])
  /\ entry_keys twice_items = ["a"; "a"]
  /\ _parse_mappings_json json_loads twice_text = Return [("a", mk_record "Unknown" 2)].
Proof. repeat split; vm_compute; reflexivity. Qed.

(** Here too what counts is the candidate text: an input of the form
    [{"mappings": [...]}] with a fenced block inside a string of an
    element is replaced by the block, and the empty mapping comes back. *)
Example fence_in_element_returns_empty_mapping :
  json_loads fence_in_element_text
    = Return (PDict [("mappings",
                      PList [PDict [("original_name", PStr "a");
                                    ("sub_region", PStr "```{}```")]])])
  /\ candidate fence_in_element_text = "{}"
  /\ _parse_mappings_json json_loads fence_in_element_text = Return [].
Proof. repeat split; vm_compute; reflexivity. Qed.

(** C8, as amended.  The statement is about the candidate text, the text
    the interpreter hands to the decoder: the input stripped, or group 1
    of the fenced block the pattern finds in it.  When the candidate text
    is decoded to a JSON object [{"mappings": [...]}] none of whose
    elements has an infinite float for a score, the interpreter returns,
    and the mapping has exactly one entry for each distinct text of a name
    among the elements that are objects with a name that is not [null]. *)
Theorem one_entry_per_distinct_name (loads : string -> outcome pyval) (text : string)
    (items : list pyval) :
  loads (candidate text) = Return (PDict [("mappings", PList items)]) ->
  Forall (fun item => infinite_score item = false) items ->
  exists result,
    _parse_mappings_json loads text = Return result
    /\ NoDup (dict_keys result)
    /\ (forall k, In k (dict_keys result) <-> In k (entry_keys items))
    /\ List.length result = List.length (nodup string_dec (entry_keys items)).
Proof.
  intros Hload Hfin. unfold _parse_mappings_json. rewrite Hload. simpl bind.
  rewrite read_mappings_only_key.
  destruct (for_items_keys items Hfin []) as (r & Hr & Hnd & Hin).
  exists r. split; [exact Hr|].
  assert (Hnd' : NoDup (dict_keys r)) by (apply Hnd; constructor).
  assert (Hin' : forall k, In k (dict_keys r) <-> In k (entry_keys items)).
  { intros k. rewrite Hin. simpl. intuition. }
  split; [exact Hnd'|]. split; [exact Hin'|].
  replace (List.length r) with (List.length (dict_keys r))
    by (unfold dict_keys; apply List.length_map).
  apply Permutation.Permutation_length, Permutation.NoDup_Permutation.
  - exact Hnd'.
  - apply NoDup_nodup.
  - intros k. rewrite Hin', nodup_In. reflexivity.
Qed.

Lemma one_entry_per_distinct_name_witness :
  exists result,
    _parse_mappings_json json_loads twice_text = Return result
    /\ NoDup (dict_keys result)
    /\ (forall k, In k (dict_keys result) <-> In k (entry_keys twice_items))
    /\ List.length result = List.length (nodup string_dec (entry_keys twice_items)).
Proof.
  refine (one_entry_per_distinct_name json_loads twice_text twice_items _ _).
  - vm_compute. reflexivity.
  - repeat constructor.
Defined.

(** ** Fenced blocks *)


Section StringFacts.

Lemma app_assoc_s (a b c : string) : (a ++ b) ++ c = a ++ (b ++ c).
Proof. induction a as [|x a IH]; simpl; [reflexivity | now rewrite IH]. Qed.

Lemma app_nil_r_s (a : string) : a ++ "" = a.
Proof. induction a as [|x a IH]; simpl; [reflexivity | now rewrite IH]. Qed.

Lemma length_app_s (a b : string) :
  String.length (a ++ b) = (String.length a + String.length b)%nat.
Proof. induction a as [|x a IH]; simpl; [reflexivity | now rewrite IH]. Qed.

Lemma drop_app_length (a b : string) : drop (String.length a) (a ++ b) = b.
Proof. induction a as [|x a IH]; simpl; [reflexivity | exact IH]. Qed.

Lemma take_app_length (a b : string) : take (String.length a) (a ++ b) = a.
Proof.
  induction a as [|x a IH]; simpl; [now destruct b | now rewrite IH].
Qed.

Lemma drop_app_more (a b : string) (n : nat) :
  drop (String.length a + n) (a ++ b) = drop n b.
Proof. induction a as [|x a IH]; simpl; [reflexivity | exact IH]. Qed.

Lemma strip_prefix_app (p s : string) : strip_prefix p (p ++ s) = Some s.
Proof.
  induction p as [|x p IH]; simpl; [reflexivity|].
  now rewrite Ascii.eqb_refl.
Qed.

Lemma all_space_app (a b : string) :
  all_space (a ++ b) = all_space a && all_space b.
Proof.
  induction a as [|x a IH]; simpl; [reflexivity|].
  now rewrite IH, andb_assoc.
Qed.

Lemma lstrip_app_space (w s : string) :
  all_space w = true -> lstrip (w ++ s) = lstrip s.
Proof.
  induction w as [|x w IH]; simpl; [reflexivity|].
  intros H. apply andb_prop in H. destruct H as [Hx Hw]. rewrite Hx. auto.
Qed.

Lemma rstrip_space (w : string) : all_space w = true -> rstrip w = "".
Proof.
  induction w as [|x w IH]; simpl; [reflexivity|].
  intros H. apply andb_prop in H. destruct H as [Hx Hw].
  now rewrite (IH Hw), Hx.
Qed.

Lemma rstrip_nonempty (s : string) (c : ascii) :
  isspace c = false -> rstrip (s ++ String c "") = s ++ String c "".
Proof.
  intros Hc. induction s as [|x s IH]; simpl.
  - now rewrite Hc.
  - rewrite IH. destruct s; reflexivity.
Qed.

Lemma rstrip_app_space (s w : string) :
  all_space w = true -> rstrip (s ++ w) = rstrip s.
Proof.
  intros Hw. induction s as [|x s IH]; simpl.
  - now apply rstrip_space.
  - now rewrite IH.
Qed.

(** What [lstrip] and [rstrip] cut off is whitespace. *)
Lemma lstrip_split (t : string) :
  exists l, t = l ++ lstrip t /\ all_space l = true.
Proof.
  induction t as [|x t (l & Hl & Hs)]; simpl.
  - now exists "".
  - destruct (isspace x) eqn:Hx.
    + exists (String x l). simpl. rewrite Hx, Hs. split; [now f_equal | reflexivity].
    + now exists "".
Qed.

Lemma rstrip_split (t : string) :
  exists r, t = rstrip t ++ r /\ all_space r = true.
Proof.
  induction t as [|x t (r & Hr & Hs)]; simpl.
  - now exists "".
  - destruct (rstrip t) as [|y u] eqn:Eu.
    + destruct (isspace x) eqn:Hx.
      * exists (String x r). simpl in *. rewrite Hx, Hs. split; [now f_equal | reflexivity].
      * exists r. simpl in *. split; [now f_equal | assumption].
    + exists r. split; [|assumption]. simpl. now f_equal.
Qed.

Lemma strip_split (t : string) :
  exists l r, t = l ++ strip t ++ r /\ all_space l = true /\ all_space r = true.
Proof.
  destruct (lstrip_split t) as (l & Hl & Hsl).
  destruct (rstrip_split (lstrip t)) as (r & Hr & Hsr).
  exists l, r. unfold strip. split; [|split; assumption].
  now rewrite <- Hr.
Qed.

Lemma span_space (w s : string) (c : ascii) :
  all_space w = true -> isspace c = false ->
  span isspace (w ++ String c s) = String.length w.
Proof.
  intros Hw Hc. induction w as [|x w IH]; simpl.
  - now rewrite Hc.
  - simpl in Hw. apply andb_prop in Hw. destruct Hw as [Hx Hw].
    rewrite Hx. now rewrite IH.
Qed.

Lemma span_any (s : string) : span any_char s = String.length s.
Proof. induction s as [|x s IH]; simpl; [reflexivity | now rewrite IH]. Qed.

End StringFacts.

Section MatcherFacts.

Variable k : string -> option string.

Lemma try_from_here (s : string) (n : nat) (r : string) :
  k (drop n s) = Some r -> try_from k s n = Some r.
Proof. intros H. destruct n; simpl; simpl in H; now rewrite H. Qed.

(** The greedy repetition settles on the longest run after which the
    rest of the pattern matches. *)
Lemma try_from_longest (s : string) (j : nat) (r : string) :
  k (drop j s) = Some r ->
  forall n, (j <= n)%nat ->
    (forall i, (j < i <= n)%nat -> k (drop i s) = None) ->
    try_from k s n = Some r.
Proof.
  intros Hj. induction n as [|n IH]; intros Hle Hnone.
  - assert (j = O) by lia. subst j. now apply try_from_here.
  - destruct (Nat.eq_dec j (S n)) as [->|Hne].
    + now apply try_from_here.
    + change (try_from k s (S n))
        with (match k (drop (S n) s) with
              | Some r0 => Some r0
              | None => try_from k s n
              end).
      rewrite (Hnone (S n)) by lia.
      apply IH; [lia|]. intros i Hi. apply Hnone. lia.
Qed.

End MatcherFacts.

Section FenceFacts.

Lemma search_here (pat : list node) (s g : string) :
  match_here pat s "" "" = Some g -> search pat s = Some g.
Proof. intros H. destruct s; simpl; now rewrite H. Qed.

Lemma match_here_lit (l : string) (pat : list node) (s start cap : string) :
  match_here (Lit l :: pat) (l ++ s) start cap = match_here pat s start cap.
Proof. simpl. now rewrite strip_prefix_app. Qed.

Lemma not_space_not_json (w s : string) :
  all_space w = true -> strip_prefix "json" (w ++ String "{" s) = None.
Proof.
  destruct w as [|c w]; [reflexivity|].
  intros H. cbn [all_space] in H. apply andb_prop in H. destruct H as [Hc _].
  cbn [append strip_prefix].
  destruct (Ascii.eqb_spec "j" c) as [<-|_]; [discriminate | reflexivity].
Qed.

Lemma match_here_tag (tag w rest : string) (pat : list node) (start cap g : string) :
  tag = "" \/ tag = "json" ->
  all_space w = true ->
  match_here pat (w ++ String "{" rest) start cap = Some g ->
  match_here (Opt "json" :: pat) (tag ++ w ++ String "{" rest) start cap = Some g.
Proof.
  intros [->| ->] Hw Hm.
  - change ("" ++ w ++ String "{" rest) with (w ++ String "{" rest).
    cbn [match_here]. now rewrite (not_space_not_json w rest Hw).
  - cbn [match_here]. rewrite strip_prefix_app. now rewrite Hm.
Qed.

Lemma match_here_spaces (w rest : string) (c : ascii) (pat : list node)
    (start cap g : string) :
  all_space w = true ->
  isspace c = false ->
  match_here pat (String c rest) start cap = Some g ->
  match_here (Many isspace :: pat) (w ++ String c rest) start cap = Some g.
Proof.
  intros Hw Hc Hm. cbn [match_here]. rewrite (span_space w rest c Hw Hc).
  apply try_from_here. now rewrite drop_app_length.
Qed.





Lemma lstrip_nonspace (c : ascii) (s : string) :
  isspace c = false -> lstrip (String c s) = String c s.
Proof. intros H. simpl. now rewrite H. Qed.



End FenceFacts.

(** ** The text of a JSON object *)

Section DecoderFacts.

Lemma suffix_refl (s : string) : suffix s s.
Proof. now exists "". Qed.

Lemma suffix_trans (a b c : string) : suffix a b -> suffix b c -> suffix a c.
Proof.
  intros [p ->] [p' ->]. exists (p' ++ p). now rewrite app_assoc_s.
Qed.

Lemma suffix_cons (c : ascii) (r s : string) : suffix r s -> suffix r (String c s).
Proof. intros [p ->]. now exists (String c p). Qed.

Lemma strip_prefix_some (p s r : string) : strip_prefix p s = Some r -> s = p ++ r.
Proof.
  revert s. induction p as [|a p IH]; intros s H.
  - simpl in H. now injection H.
  - destruct s as [|b s]; [discriminate|]. cbn [strip_prefix] in H.
    destruct (Ascii.eqb_spec a b) as [->|]; [|discriminate].
    cbn [append]. f_equal. auto.
Qed.

Lemma strip_prefix_suffix (p s r : string) : strip_prefix p s = Some r -> suffix r s.
Proof. intros H. exists p. now apply strip_prefix_some. Qed.

Lemma json_ws_isspace (c : ascii) : json_ws c = true -> isspace c = true.
Proof.
  unfold json_ws, isspace. intros H.
  repeat (apply orb_prop in H; destruct H as [H|H]);
    apply Z.eqb_eq in H; rewrite H; reflexivity.
Qed.

Lemma skip_ws_split (s : string) :
  exists w, s = w ++ skip_ws s /\ all_space w = true.
Proof.
  induction s as [|c s (w & Hw & Hs)]; cbn [skip_ws].
  - now exists "".
  - destruct (json_ws c) eqn:Hc.
    + exists (String c w). cbn [append all_space].
      rewrite (json_ws_isspace c Hc), Hs. split; [now f_equal | reflexivity].
    + now exists "".
Qed.

Lemma skip_ws_suffix (s : string) : suffix (skip_ws s) s.
Proof. destruct (skip_ws_split s) as (w & Hw & _). now exists w. Qed.

Lemma skip_ws_empty (s : string) : skip_ws s = "" -> all_space s = true.
Proof.
  destruct (skip_ws_split s) as (w & Hw & Hs). intros He.
  rewrite He, app_nil_r_s in Hw. now subst w.
Qed.

Lemma cons_char_return (c : ascii) (res : outcome (string * string)) (k r : string) :
  cons_char c res = Return (k, r) -> exists k', res = Return (k', r).
Proof.
  destruct res as [[k' r']|]; [|discriminate].
  cbn. intros H. injection H as _ <-. now exists k'.
Qed.

Lemma scanstring_suffix_bounded (n : nat) :
  forall s k r, (String.length s <= n)%nat -> scanstring s = Return (k, r) -> suffix r s.
Proof.
  induction n as [|n IH]; intros s k r Hlen H.
  - destruct s; [discriminate | simpl in Hlen; lia].
  - destruct s as [|c s]; [discriminate|].
    cbn [String.length] in Hlen. cbn [scanstring] in H.
    destruct (code c =? 34).
    { injection H as _ <-. apply suffix_cons, suffix_refl. }
    destruct (code c =? 92).
    + destruct s as [|e s]; [discriminate|]. cbn [String.length] in Hlen.
      destruct (code e =? 117).
      * destruct s as [|h1 [|h2 [|h3 [|h4 rest]]]]; try discriminate.
        cbn [String.length] in Hlen.
        destruct (hex4 h1 h2 h3 h4) as [v|]; [|discriminate].
        destruct (v <? 256); [|discriminate].
        apply cons_char_return in H. destruct H as [k' H].
        do 6 apply suffix_cons. apply (IH rest k' r); [lia | exact H].
      * destruct (unescape e) as [x|]; [|discriminate].
        apply cons_char_return in H. destruct H as [k' H].
        do 2 apply suffix_cons. apply (IH s k' r); [lia | exact H].
    + destruct (code c <? 32); [discriminate|].
      apply cons_char_return in H. destruct H as [k' H].
      apply suffix_cons. apply (IH s k' r); [lia | exact H].
Qed.

Lemma scanstring_suffix (s k r : string) : scanstring s = Return (k, r) -> suffix r s.
Proof. apply (scanstring_suffix_bounded (String.length s)). lia. Qed.

Lemma take_digits_suffix (s : string) :
  forall acc count, suffix (snd (take_digits s acc count)) s.
Proof.
  induction s as [|c s IH]; intros acc count; cbn [take_digits].
  - apply suffix_refl.
  - destruct (is_digit c); [apply suffix_cons, IH | apply suffix_refl].
Qed.

Lemma int_part_suffix (s : string) (v : Z) (n : nat) (r : string) :
  int_part s = Some (v, n, r) -> suffix r s.
Proof.
  unfold int_part. destruct s as [|c s]; [discriminate|].
  pose proof (take_digits_suffix (String c s) 0 0) as Hs.
  destruct (take_digits (String c s) 0 0) as [[v0 n0] r0]. cbn [snd] in Hs.
  destruct (code c =? 48).
  - intros H. injection H as _ _ <-. apply suffix_cons, suffix_refl.
  - destruct (is_digit c); [|discriminate].
    intros H. injection H as _ _ <-. exact Hs.
Qed.

Lemma frac_part_suffix (s : string) (v : Z) (n : nat) (r : string) :
  frac_part s = Some (v, n, r) -> suffix r s.
Proof.
  unfold frac_part. destruct s as [|c [|d s]]; try discriminate.
  pose proof (take_digits_suffix (String d s) 0 0) as Hs.
  destruct (take_digits (String d s) 0 0) as [[v0 n0] r0]. cbn [snd] in Hs.
  destruct ((code c =? 46) && is_digit d); [|discriminate].
  intros H. injection H as _ _ <-. now apply suffix_cons.
Qed.

Lemma exp_part_suffix (s : string) (v : Z) (r : string) :
  exp_part s = Some (v, r) -> suffix r s.
Proof.
  unfold exp_part. destruct s as [|c s1]; [discriminate|].
  destruct ((code c =? 101) || (code c =? 69)); [|discriminate].
  set (p := match s1 with
            | String "+" r0 => (false, r0)
            | String "-" r0 => (true, r0)
            | _ => (false, s1)
            end).
  assert (Hp : suffix (snd p) s1).
  { subst p. destruct s1 as [|x s1]; [apply suffix_refl|].
    destruct x as [[] [] [] [] [] [] [] []]; cbn; try apply suffix_refl;
      apply suffix_cons, suffix_refl. }
  destruct p as [neg s2]. cbn [snd] in Hp.
  destruct s2 as [|d s2]; [discriminate|].
  pose proof (take_digits_suffix (String d s2) 0 0) as Hs.
  destruct (take_digits (String d s2) 0 0) as [[v0 n0] rest]. cbn [snd] in Hs.
  destruct (is_digit d); [|discriminate].
  intros H. injection H as _ <-.
  apply suffix_cons. eapply suffix_trans; eassumption.
Qed.

Lemma scan_number_suffix (s : string) (v : pyval) (r : string) :
  scan_number s = Some (Return (v, r)) -> suffix r s /\ (forall d, v <> PDict d).
Proof.
  unfold scan_number.
  set (p := match s with
            | String "-" r0 => (true, r0)
            | _ => (false, s)
            end).
  assert (Hp : suffix (snd p) s).
  { subst p. destruct s as [|x s]; [apply suffix_refl|].
    destruct x as [[] [] [] [] [] [] [] []]; cbn; try apply suffix_refl;
      apply suffix_cons, suffix_refl. }
  destruct p as [neg s1]. cbn [snd] in Hp.
  destruct (int_part s1) as [[[i ni] s2]|] eqn:Ei; [|discriminate].
  apply int_part_suffix in Ei.
  assert (H2 : suffix s2 s) by (eapply suffix_trans; eassumption).
  destruct (frac_part s2) as [[[f nf] s3]|] eqn:Ef.
  - apply frac_part_suffix in Ef.
    assert (H3 : suffix s3 s) by (eapply suffix_trans; eassumption).
    destruct (exp_part s3) as [[x s4]|] eqn:Ex.
    + apply exp_part_suffix in Ex. cbn. intros H. injection H as <- <-.
      split; [eapply suffix_trans; eassumption | discriminate].
    + cbn. intros H. injection H as <- <-. split; [assumption | discriminate].
  - destruct (exp_part s2) as [[x s4]|] eqn:Ex.
    + apply exp_part_suffix in Ex. cbn. intros H. injection H as <- <-.
      split; [eapply suffix_trans; eassumption | discriminate].
    + change (false || false) with false. cbv iota.
      destruct (Nat.ltb max_str_digits ni); [discriminate|].
      intros H. injection H as <- <-. split; [assumption | discriminate].
Qed.

Lemma scan_word_suffix (s : string) (v : pyval) (r : string) :
  scan_word s = Return (v, r) -> suffix r s /\ (forall d, v <> PDict d).
Proof.
  unfold scan_word.
  destruct (strip_prefix "null" s) as [r1|] eqn:E1.
  { intros H. injection H as <- <-.
    split; [eapply strip_prefix_suffix; eassumption | discriminate]. }
  destruct (strip_prefix "true" s) as [r2|] eqn:E2.
  { intros H. injection H as <- <-.
    split; [eapply strip_prefix_suffix; eassumption | discriminate]. }
  destruct (strip_prefix "false" s) as [r3|] eqn:E3.
  { intros H. injection H as <- <-.
    split; [eapply strip_prefix_suffix; eassumption | discriminate]. }
  destruct (scan_number s) as [res|] eqn:En.
  { intros H. subst res. now apply scan_number_suffix. }
  destruct (strip_prefix "NaN" s) as [r4|] eqn:E4.
  { intros H. injection H as <- <-.
    split; [eapply strip_prefix_suffix; eassumption | discriminate]. }
  destruct (strip_prefix "Infinity" s) as [r5|] eqn:E5.
  { intros H. injection H as <- <-.
    split; [eapply strip_prefix_suffix; eassumption | discriminate]. }
  destruct (strip_prefix "-Infinity" s) as [r6|] eqn:E6.
  { intros H. injection H as <- <-.
    split; [eapply strip_prefix_suffix; eassumption | discriminate]. }
  discriminate.
Qed.

Lemma code_eq (c : ascii) (n : Z) : (code c =? n) = true -> c = chr n.
Proof.
  intros H. apply Z.eqb_eq in H. subst n. unfold chr, code.
  now rewrite N2Z.id, ascii_N_embedding.
Qed.

(** What each scanner leaves is a suffix of what it was given; an object
    starts with an opening brace and ends, just before what is left,
    with a closing brace. *)
Lemma scan_shape (fuel : nat) :
  (forall s v r, scan_once fuel s = Return (v, r) ->
     suffix r s
     /\ (forall d, v = PDict d ->
         exists s', s = String "{" s' /\ suffix (String "}" r) s'))
  /\ (forall acc s v r, scan_items fuel acc s = Return (v, r) ->
       suffix r s /\ (forall d, v <> PDict d))
  /\ (forall acc s v r, scan_pairs fuel acc s = Return (v, r) ->
       suffix (String "}" r) s).
Proof.
  induction fuel as [|n (IH1 & IH2 & IH3)].
  { repeat split; intros; discriminate. }
  split; [|split].
  - intros s v r. destruct s as [|c s]; [discriminate|]. cbn [scan_once].
    destruct (code c =? 34).
    { destruct (scanstring s) as [[k r0]|] eqn:Ek; [|discriminate].
      apply scanstring_suffix in Ek. cbn. intros H. injection H as <- <-.
      split; [now apply suffix_cons | discriminate]. }
    destruct (code c =? 123) eqn:Ec.
    { apply code_eq in Ec. subst c.
      pose proof (skip_ws_suffix s) as Hw.
      destruct (skip_ws s) as [|d0 r0]; [discriminate|].
      destruct (code d0 =? 125) eqn:Ed.
      { apply code_eq in Ed. subst d0. intros H. injection H as <- <-. split.
        - apply suffix_cons. eapply suffix_trans; [|exact Hw].
          apply suffix_cons, suffix_refl.
        - intros d _. exists s. split; [reflexivity | exact Hw]. }
      destruct (code d0 =? 34); [|discriminate].
      intros H. apply IH3 in H.
      assert (Hs : suffix (String "}" r) s).
      { eapply suffix_trans; [exact H|]. eapply suffix_trans; [|exact Hw].
        apply suffix_cons, suffix_refl. }
      split.
      - apply suffix_cons. eapply suffix_trans; [|exact Hs].
        apply suffix_cons, suffix_refl.
      - intros d _. exists s. split; [reflexivity | exact Hs]. }
    destruct (code c =? 91).
    { pose proof (skip_ws_suffix s) as Hw.
      destruct (skip_ws s) as [|d0 r0]; [discriminate|].
      destruct (code d0 =? 93).
      - intros H. injection H as <- <-. split; [|discriminate].
        apply suffix_cons. eapply suffix_trans; [|exact Hw].
        apply suffix_cons, suffix_refl.
      - intros H. apply IH2 in H. destruct H as [H Hv].
        split; [|intros d ->; now contradiction (Hv d)].
        apply suffix_cons. eapply suffix_trans; eassumption. }
    intros H. apply scan_word_suffix in H. destruct H as [H Hv].
    split; [exact H|]. intros d ->. now contradiction (Hv d).
  - intros acc s v r. cbn [scan_items].
    destruct (scan_once n s) as [[v0 r0]|] eqn:E0; [|discriminate].
    apply IH1 in E0. destruct E0 as [H0 _]. cbn [bind fst snd].
    pose proof (skip_ws_suffix r0) as Hw.
    destruct (skip_ws r0) as [|d0 r1]; [discriminate|].
    assert (H1 : suffix r1 s).
    { eapply suffix_trans; [|exact H0]. eapply suffix_trans; [|exact Hw].
      apply suffix_cons, suffix_refl. }
    destruct (code d0 =? 93).
    + intros H. injection H as <- <-. split; [exact H1 | discriminate].
    + destruct (code d0 =? 44); [|discriminate].
      intros H. apply IH2 in H. destruct H as [H Hv]. split; [|exact Hv].
      eapply suffix_trans; [exact H|].
      eapply suffix_trans; [apply skip_ws_suffix | exact H1].
  - intros acc s v r. cbn [scan_pairs].
    destruct (scanstring s) as [[k r0]|] eqn:Ek; [|discriminate].
    apply scanstring_suffix in Ek. cbn [bind fst snd].
    pose proof (skip_ws_suffix r0) as Hw0.
    destruct (skip_ws r0) as [|c1 r1]; [discriminate|].
    assert (H1 : suffix r1 s).
    { eapply suffix_trans; [|exact Ek]. eapply suffix_trans; [|exact Hw0].
      apply suffix_cons, suffix_refl. }
    destruct (code c1 =? 58); [|discriminate].
    destruct (scan_once n (skip_ws r1)) as [[v0 r2]|] eqn:E2; [|discriminate].
    apply IH1 in E2. destruct E2 as [H2 _]. cbn [bind fst snd].
    assert (H2' : suffix r2 s).
    { eapply suffix_trans; [exact H2|].
      eapply suffix_trans; [apply skip_ws_suffix | exact H1]. }
    pose proof (skip_ws_suffix r2) as Hw2.
    destruct (skip_ws r2) as [|d0 r3]; [discriminate|].
    assert (H3 : suffix (String d0 r3) s) by (eapply suffix_trans; eassumption).
    destruct (code d0 =? 125) eqn:Ed.
    + apply code_eq in Ed. subst d0. intros H. injection H as _ <-. exact H3.
    + destruct (code d0 =? 44); [|discriminate].
      pose proof (skip_ws_suffix r3) as Hw3.
      destruct (skip_ws r3) as [|e r4]; [discriminate|].
      destruct (code e =? 34); [|discriminate].
      intros H. apply IH3 in H.
      eapply suffix_trans; [exact H|].
      eapply suffix_trans; [|exact H3]. apply suffix_cons.
      eapply suffix_trans; [|exact Hw3]. apply suffix_cons, suffix_refl.
Qed.

(** The text of a JSON object, stripped, goes from an opening brace to a
    closing brace. *)
Lemma json_object_shape (t : string) (d : dict pyval) :
  json_loads t = Return (PDict d) ->
  exists body, strip t = String "{" (body ++ "}").
Proof.
  unfold json_loads.
  destruct (scan_once _ (skip_ws t)) as [[v r]|] eqn:E; [|discriminate].
  cbn [bind fst snd].
  destruct (skip_ws r) eqn:Er; [|discriminate].
  intros H. injection H as ->.
  apply (proj1 (scan_shape _)) in E. destruct E as [_ E].
  destruct (E d eq_refl) as (s' & Hs & [body Hb]).
  apply skip_ws_empty in Er.
  destruct (skip_ws_split t) as (w & Hw & Hsw).
  exists body. unfold strip. rewrite Hw, (lstrip_app_space w _ Hsw), Hs.
  rewrite lstrip_nonspace by reflexivity. subst s'.
  replace (String "{" (body ++ String "}" r)) with ((String "{" body ++ "}") ++ r)
    by (cbn [append]; now rewrite app_assoc_s).
  rewrite (rstrip_app_space _ r Er).
  change (String "{" body ++ "}") with (String "{" body ++ String "}" "").
  now rewrite rstrip_nonempty.
Qed.

End DecoderFacts.

(** ** A fenced object and the bare object *)

Section FencedAndBare.

Lemma prefix_nil (s : string) : prefix "" s = true.
Proof. now destruct s. Qed.

Lemma prefix_app (p s b : string) : prefix p s = true -> prefix p (s ++ b) = true.
Proof.
  revert s. induction p as [|x p IH]; intros s H; [apply prefix_nil|].
  destruct s as [|y s]; [discriminate|]. cbn [prefix append] in *.
  destruct (ascii_dec x y); [auto | discriminate].
Qed.

Lemma contains_app_r (p s b : string) :
  contains p s = true -> contains p (s ++ b) = true.
Proof.
  induction s as [|y s IH]; intros H.
  - destruct p; [|discriminate]. cbn [append].
    destruct b; cbn [contains]; now rewrite prefix_nil.
  - cbn [contains] in H. apply orb_prop in H.
    change (String y s ++ b) with (String y (s ++ b)). cbn [contains].
    apply orb_true_intro. destruct H as [H|H].
    + left. exact (prefix_app p (String y s) b H).
    + right. auto.
Qed.

Lemma contains_app_l (p a s : string) :
  contains p s = true -> contains p (a ++ s) = true.
Proof.
  intros H. induction a as [|y a IH]; [exact H|].
  change (String y a ++ s) with (String y (a ++ s)). cbn [contains].
  rewrite IH. apply orb_true_r.
Qed.

Lemma strip_prefix_prefix (p s r : string) :
  strip_prefix p s = Some r -> prefix p s = true.
Proof.
  revert s. induction p as [|x p IH]; intros s H; [apply prefix_nil|].
  destruct s as [|y s]; [discriminate|]. cbn [strip_prefix prefix] in *.
  destruct (Ascii.eqb_spec x y) as [->|]; [|discriminate].
  destruct (ascii_dec y y); [eauto | congruence].
Qed.

Lemma search_fence_contains (s g : string) :
  search fence s = Some g -> contains "```" s = true.
Proof.
  assert (Hhere : forall u, match_here fence u "" "" <> None -> prefix "```" u = true).
  { intros u Hu. unfold fence in Hu. cbn [match_here] in Hu.
    destruct (strip_prefix "```" u) eqn:E; [|congruence].
    eapply strip_prefix_prefix; eassumption. }
  induction s as [|c s IH]; cbn [search contains].
  - destruct (match_here fence "" "" "") eqn:E; [|discriminate].
    intros _. rewrite Hhere by congruence. reflexivity.
  - destruct (match_here fence (String c s) "" "") eqn:E.
    + intros _. rewrite Hhere by congruence. reflexivity.
    + intros H. rewrite (IH H). apply orb_true_r.
Qed.

(** A text without three backticks in a row holds no fenced block. *)
Lemma no_backticks_no_fence (t : string) :
  contains "```" t = false -> search fence (strip t) = None.
Proof.
  intros H. destruct (search fence (strip t)) as [g|] eqn:E; [|reflexivity].
  apply search_fence_contains in E.
  destruct (strip_split t) as (l & r & Ht & _ & _).
  rewrite Ht in H.
  now rewrite (contains_app_l _ l _ (contains_app_r _ _ r E)) in H.
Qed.

Variable loads : string -> outcome pyval.


End FencedAndBare.



Example fenced_plain_object_example :
  _parse_mappings_json json_loads (fenced "json" "" newline newline " " plain_object_text)
  = Return [("a", mk_record "Unknown" 5)].
Proof. vm_compute. reflexivity. Qed.

(** ** What the model selector looks for *)

Section SelectorFacts.

Lemma prefix_trans (a b c : string) :
  prefix a b = true -> prefix b c = true -> prefix a c = true.
Proof.
  revert b c. induction a as [|x a IH]; intros b c Hab Hbc; [apply prefix_nil|].
  destruct b as [|y b]; [discriminate|]. destruct c as [|z c]; [discriminate|].
  cbn [prefix] in *.
  destruct (ascii_dec x y) as [->|]; [|discriminate].
  destruct (ascii_dec y z) as [->|]; [|discriminate]. eauto.
Qed.

Lemma split_head_prefix (sep : ascii) (s : string) : prefix (split_head sep s) s = true.
Proof.
  induction s as [|c s IH]; [reflexivity|]. cbn [split_head].
  destruct (Ascii.eqb c sep); [reflexivity|]. cbn [prefix].
  destruct (ascii_dec c c); [exact IH | congruence].
Qed.

Lemma contains_prefix (a b n : string) :
  prefix a b = true -> contains b n = true -> contains a n = true.
Proof.
  intros Hab. induction n as [|c n IH]; cbn [contains]; intros H;
    apply orb_prop in H; apply orb_true_intro; destruct H as [H|H].
  - left. eapply prefix_trans; eassumption.
  - discriminate.
  - left. eapply prefix_trans; eassumption.
  - right. auto.
Qed.

(** With a colon in the preferred name, line 26 asks only for the family:
    a name that holds the preferred name holds its family too. *)
Lemma name_matches_family (preferred n : string) :
  contains ":" preferred = true ->
  name_matches preferred n = contains (split_head ":" preferred) n.
Proof.
  intros Hc. unfold name_matches. rewrite Hc.
  destruct (contains preferred n) eqn:Ep; [|reflexivity].
  symmetry. exact (contains_prefix _ _ n (split_head_prefix ":" preferred) Ep).
Qed.

(** Without a colon, line 26 asks for the preferred name. *)
Lemma name_matches_whole (preferred n : string) :
  contains ":" preferred = false ->
  name_matches preferred n = contains preferred n.
Proof. intros Hc. unfold name_matches. rewrite Hc. apply orb_diag. Qed.

(** No model listed: the preferred name comes back. *)
Lemma pick_from_empty (preferred : string) : pick_from [] preferred = preferred.
Proof. reflexivity. Qed.

(** No name matches: the first one listed comes back. *)
Lemma pick_from_no_match (n : string) (names : list string) (preferred : string) :
  first_match preferred (n :: names) = None -> pick_from (n :: names) preferred = n.
Proof. intros H. unfold pick_from. now rewrite H. Qed.

End SelectorFacts.

(** ** A later element with the same name *)

Lemma store_item_result (result r : dict record) (item : pyval) :
  store_item result item = Return r ->
  r = result \/ exists k rec, entry_key item = Some k /\ r = dict_set k rec result.
Proof.
  destruct (entry_key item) as [k|] eqn:Ek.
  - destruct item as [| | | | | |d]; try discriminate.
    unfold store_item. unfold entry_key in Ek.
    destruct (coerce_score (get_default d "affluence_score" (PInt 5))) as [z|];
      destruct (get_default d "original_name" PNone); try discriminate;
      cbn [bind]; intros H; try discriminate; injection H as <-; injection Ek as <-;
      right; eexists _, _; split; reflexivity.
  - rewrite (store_item_unnamed result item Ek). intros H. injection H as <-. now left.
Qed.

(** Once a name is stored, its record stays until an element with the same
    name comes: the last element with a name decides its record. *)
Lemma later_elements_keep_record (post : list pyval) :
  forall (result r : dict record) (k : string) (rec : record),
  (forall item, In item post -> entry_key item <> Some k) ->
  dict_get k result = Some rec ->
  for_items result post = Return r ->
  dict_get k r = Some rec.
Proof.
  induction post as [|item post IH]; intros result r k rec Hother Hget Hfor.
  - injection Hfor as <-. exact Hget.
  - cbn [for_items] in Hfor.
    destruct (store_item result item) as [r1|] eqn:Es; [|discriminate].
    cbn [bind] in Hfor.
    apply (IH r1 r k rec); [intros j Hj; apply Hother; now right | | exact Hfor].
    apply store_item_result in Es. destruct Es as [->|(k' & rec' & Hk' & ->)].
    + exact Hget.
    + rewrite dict_get_set_other; [exact Hget|].
      intros ->. apply (Hother item); [now left | exact Hk'].
Qed.

(** ** The fuel of the decoder *)

Section FuelFacts.

Lemma suffix_length (r s : string) :
  suffix r s -> (String.length r <= String.length s)%nat.
Proof. intros [p ->]. rewrite length_app_s. lia. Qed.

Lemma suffix_tail_length (c : ascii) (r s : string) :
  suffix (String c r) s -> (S (String.length r) <= String.length s)%nat.
Proof. intros H. apply suffix_length in H. exact H. Qed.

(** More fuel than twice the length of the text changes nothing. *)
Lemma scan_fuel (n : nat) :
  (forall s m, (2 * String.length s + 1 <= n)%nat -> (n <= m)%nat ->
     scan_once m s = scan_once n s)
  /\ (forall acc s m, (2 * String.length s + 2 <= n)%nat -> (n <= m)%nat ->
       scan_items m acc s = scan_items n acc s)
  /\ (forall acc s m, (2 * String.length s + 2 <= n)%nat -> (n <= m)%nat ->
       scan_pairs m acc s = scan_pairs n acc s).
Proof.
  induction n as [|n (IH1 & IH2 & IH3)].
  { repeat split; intros; lia. }
  split; [|split].
  - intros s m Hn Hm. destruct m as [|m]; [lia|].
    destruct s as [|c s]; [reflexivity|]. cbn [scan_once String.length] in *.
    destruct (code c =? 34); [reflexivity|].
    destruct (code c =? 123).
    { pose proof (skip_ws_suffix s) as Hw.
      destruct (skip_ws s) as [|d0 r0]; [reflexivity|].
      apply suffix_tail_length in Hw.
      destruct (code d0 =? 125); [reflexivity|].
      destruct (code d0 =? 34); [|reflexivity].
      apply IH3; lia. }
    destruct (code c =? 91); [|reflexivity].
    pose proof (skip_ws_suffix s) as Hw.
    destruct (skip_ws s) as [|d0 r0]; [reflexivity|].
    apply suffix_length in Hw.
    destruct (code d0 =? 93); [reflexivity|].
    apply IH2; lia.
  - intros acc s m Hn Hm. destruct m as [|m]; [lia|]. cbn [scan_items].
    rewrite (IH1 s m) by lia.
    destruct (scan_once n s) as [[v0 r0]|] eqn:E0; [|reflexivity].
    apply (proj1 (scan_shape n)) in E0. destruct E0 as [H0 _].
    apply suffix_length in H0. cbn [bind fst snd].
    pose proof (skip_ws_suffix r0) as Hw.
    destruct (skip_ws r0) as [|d0 r1]; [reflexivity|].
    apply suffix_tail_length in Hw.
    destruct (code d0 =? 93); [reflexivity|].
    destruct (code d0 =? 44); [|reflexivity].
    pose proof (suffix_length _ _ (skip_ws_suffix r1)).
    apply IH2; lia.
  - intros acc s m Hn Hm. destruct m as [|m]; [lia|]. cbn [scan_pairs].
    destruct (scanstring s) as [[k r0]|] eqn:Ek; [|reflexivity].
    apply scanstring_suffix, suffix_length in Ek. cbn [bind fst snd].
    pose proof (skip_ws_suffix r0) as Hw0.
    destruct (skip_ws r0) as [|c1 r1]; [reflexivity|].
    apply suffix_tail_length in Hw0.
    destruct (code c1 =? 58); [|reflexivity].
    pose proof (suffix_length _ _ (skip_ws_suffix r1)) as Hw1.
    rewrite (IH1 (skip_ws r1) m) by lia.
    destruct (scan_once n (skip_ws r1)) as [[v0 r2]|] eqn:E2; [|reflexivity].
    apply (proj1 (scan_shape n)) in E2. destruct E2 as [H2 _].
    apply suffix_length in H2. cbn [bind fst snd].
    pose proof (skip_ws_suffix r2) as Hw2.
    destruct (skip_ws r2) as [|d0 r3]; [reflexivity|].
    apply suffix_tail_length in Hw2.
    destruct (code d0 =? 125); [reflexivity|].
    destruct (code d0 =? 44); [|reflexivity].
    pose proof (skip_ws_suffix r3) as Hw3.
    destruct (skip_ws r3) as [|e r4]; [reflexivity|].
    apply suffix_tail_length in Hw3.
    destruct (code e =? 34); [|reflexivity].
    apply IH3; lia.
Qed.

(** The fuel [json_loads] starts with is enough: with any larger amount
    the decoder gives the same value or the same error. *)
Lemma json_loads_fuel (s : string) (m : nat) :
  (2 * String.length s + 2 <= m)%nat ->
  scan_once m (skip_ws s) = scan_once (2 * String.length s + 2) (skip_ws s).
Proof.
  intros Hm. pose proof (suffix_length _ _ (skip_ws_suffix s)).
  apply (proj1 (scan_fuel _)); lia.
Qed.

End FuelFacts.

(** * Further properties *)

(** ** [_pick_model] *)

Lemma prefix_colon (c : ascii) (s : string) :
  prefix ":" (String c s) = Ascii.eqb c ":".
Proof.
  cbn [prefix]. destruct (ascii_dec ":" c) as [<-|Hne].
  - now rewrite prefix_nil.
  - destruct (Ascii.eqb_spec c ":"); congruence.
Qed.

Lemma split_head_no_colon (s : string) :
  contains ":" s = false -> split_head ":" s = s.
Proof.
  induction s as [|c s IH]; [reflexivity|]. cbn [contains split_head].
  rewrite prefix_colon. intros H. apply orb_false_elim in H. destruct H as [Hc Hs].
  rewrite Hc. f_equal. auto.
Qed.

(** Line 26 asks one thing of a name: that it holds the preferred name up
    to its first colon. *)
Lemma name_matches_sought (preferred n : string) :
  name_matches preferred n = contains (sought preferred) n.
Proof.
  unfold sought. destruct (contains ":" preferred) eqn:Hc.
  - now apply name_matches_family.
  - rewrite (split_head_no_colon preferred Hc). now apply name_matches_whole.
Qed.

Lemma first_match_skips (preferred : string) (pre rest : list string) :
  (forall x, In x pre -> contains (sought preferred) x = false) ->
  first_match preferred (pre ++ rest)%list = first_match preferred rest.
Proof.
  induction pre as [|x pre IH]; intros Hpre; [reflexivity|].
  cbn [app first_match]. rewrite name_matches_sought, (Hpre x (or_introl eq_refl)).
  apply IH. intros y Hy. apply Hpre. now right.
Qed.

(** X1.  The selector returns the first listed name that holds the
    preferred name up to its first colon (the whole preferred name when it
    has no colon), whatever comes after it in the list. *)
Theorem pick_from_first_holding_sought (pre post : list string) (n preferred : string) :
  (forall x, In x pre -> contains (sought preferred) x = false) ->
  contains (sought preferred) n = true ->
  pick_from (pre ++ n :: post)%list preferred = n.
Proof.
  intros Hpre Hn. unfold pick_from. rewrite (first_match_skips preferred pre _ Hpre).
  cbn [first_match]. now rewrite name_matches_sought, Hn.
Qed.

Lemma pick_from_first_holding_sought_witness :
  pick_from (["mistral:7b"; "phi3"] ++ "llama3.1:70b" :: ["llama3.1:8b"])%list "llama3.1:8b"
  = "llama3.1:70b".
Proof.
  refine (pick_from_first_holding_sought ["mistral:7b"; "phi3"] ["llama3.1:8b"]
            "llama3.1:70b" "llama3.1:8b" _ _).
  - intros x [<-|[<-|[]]]; reflexivity.
  - reflexivity.
Defined.

(** X2.  When no listed name holds it, the selector returns the first
    listed name, and the preferred name itself when nothing is listed. *)
Theorem pick_from_nothing_holding_sought (names : list string) (preferred : string) :
  (forall x, In x names -> contains (sought preferred) x = false) ->
  pick_from names preferred = hd preferred names.
Proof.
  intros Hnone. unfold pick_from.
  rewrite <- (app_nil_r names) at 1. rewrite (first_match_skips preferred names [] Hnone).
  cbn [first_match]. now destruct names.
Qed.

Lemma pick_from_nothing_holding_sought_witness :
  pick_from ["mistral:7b"; "phi3"] "llama3.1:8b" = hd "llama3.1:8b" ["mistral:7b"; "phi3"].
Proof.
  refine (pick_from_nothing_holding_sought ["mistral:7b"; "phi3"] "llama3.1:8b" _).
  intros x [<-|[<-|[]]]; reflexivity.
Defined.

Lemma first_match_in (preferred : string) (names : list string) (n : string) :
  first_match preferred names = Some n -> In n names.
Proof.
  induction names as [|x names IH]; [discriminate|]. cbn [first_match].
  destruct (name_matches preferred x).
  - intros H. injection H as ->. now left.
  - intros H. right. auto.
Qed.

Lemma model_names_nonempty (resp : list_response) (n : string) :
  In n (model_names resp) -> n <> "".
Proof.
  unfold model_names. intros Hin. apply in_flat_map in Hin.
  destruct Hin as (m & _ & Hm). destruct m as [x|]; [|contradiction].
  destruct (String.eqb_spec x ""); [contradiction|].
  destruct Hm as [<-|[]]. assumption.
Qed.

(** X3.  The selector never makes a name up: it returns a name of the
    listing that is not empty, or, only when the listing has no such name,
    the preferred name unchanged. *)
Theorem pick_model_listed_or_preferred (resp : list_response) (preferred : string) :
  (In (_pick_model resp preferred) (model_names resp) /\ _pick_model resp preferred <> "")
  \/ (model_names resp = [] /\ _pick_model resp preferred = preferred).
Proof.
  unfold _pick_model, pick_from.
  pose proof (model_names_nonempty resp) as Hne.
  remember (model_names resp) as names eqn:En. clear En.
  destruct (first_match preferred names) as [n|] eqn:Ef.
  - left. apply first_match_in in Ef. split; [exact Ef | exact (Hne n Ef)].
  - destruct names as [|x names].
    + right. split; reflexivity.
    + left. split; [now left | apply Hne; now left].
Qed.

(** X4.  When [ollama_available] says no, although the listing did come,
    the selector has nothing to choose from and returns the preferred
    name. *)
Theorem unavailable_gives_preferred (resp : list_response) (preferred : string) :
  ollama_available (Return resp) = false ->
  _pick_model resp preferred = preferred.
Proof.
  intros H. destruct resp as [[|m l]|]; try discriminate; reflexivity.
Qed.

Lemma unavailable_gives_preferred_witness :
  _pick_model (Some []) "llama3.1:8b" = "llama3.1:8b".
Proof.
  refine (unavailable_gives_preferred (Some []) "llama3.1:8b" _). reflexivity.
Defined.

(** X5.  Whenever the listing has a name for the selector to return,
    [ollama_available] holds.  (Not the other way round: the one counts
    entries, the other only entries with a name.) *)
Theorem listed_name_means_available (resp : list_response) (n : string) :
  In n (model_names resp) -> ollama_available (Return resp) = true.
Proof.
  unfold model_names. destruct resp as [[|m l]|]; try contradiction. reflexivity.
Qed.

Lemma listed_name_means_available_witness :
  ollama_available (Return (Some [None; Some "phi3"])) = true.
Proof.
  refine (listed_name_means_available (Some [None; Some "phi3"]) "phi3" _).
  simpl. left. reflexivity.
Defined.

(** An entry without a name makes the listing count as available while
    the selector still has nothing to choose from. *)
Example available_without_names :
  ollama_available (Return (Some [None])) = true
  /\ _pick_model (Some [None]) "llama3.1:8b" = "llama3.1:8b".
Proof. split; reflexivity. Qed.

(** ** [main] of the upload script *)

(** X6.  With one of the two variables missing or empty the run is a
    no-op: it returns normally, writes no file, changes neither the
    environment nor the bucket, and prints one line. *)
Theorem unconfigured_run_changes_nothing (w : Upload.world) (st : Upload.state) :
  unconfigured st ->
  snd (Upload.main w st) = Upload.Returned
  /\ Upload.disk (fst (Upload.main w st)) = Upload.disk st
  /\ Upload.environ (fst (Upload.main w st)) = Upload.environ st
  /\ Upload.bucket (fst (Upload.main w st)) = Upload.bucket st
  /\ exists line, Upload.stdout (fst (Upload.main w st)) = (Upload.stdout st ++ [line])%list.
Proof.
  unfold unconfigured, Upload.main. intros [H|H].
  - rewrite H. cbn. repeat split. eexists. reflexivity.
  - destruct (Upload.nonempty (dict_get "GCS_BUCKET" (Upload.environ st))).
    + rewrite H. cbn. repeat split. eexists. reflexivity.
    + cbn. repeat split. eexists. reflexivity.
Qed.

Lemma unconfigured_run_changes_nothing_witness :
  snd (Upload.main two_reports no_credentials) = Upload.Returned
  /\ Upload.disk (fst (Upload.main two_reports no_credentials)) = Upload.disk no_credentials
  /\ Upload.environ (fst (Upload.main two_reports no_credentials))
     = Upload.environ no_credentials
  /\ Upload.bucket (fst (Upload.main two_reports no_credentials))
     = Upload.bucket no_credentials
  /\ exists line,
       Upload.stdout (fst (Upload.main two_reports no_credentials))
       = (Upload.stdout no_credentials ++ [line])%list.
Proof.
  refine (unconfigured_run_changes_nothing two_reports no_credentials _).
  right. reflexivity.
Defined.

(** X7.  A configured run that gets to the end returns normally and leaves
    no file at the path of the credentials, whether or not one was there
    before. *)
Theorem complete_run_removes_credentials (w : Upload.world) (st : Upload.state)
    (b c : string) :
  configured_with st b c ->
  Upload.client_ok w = true ->
  Upload.reports_exist w = true ->
  uploads_succeed w ->
  snd (Upload.main w st) = Upload.Returned
  /\ dict_get Upload.creds_path (Upload.disk (fst (Upload.main w st))) = None.
Proof.
  intros [Hb Hcr] Hc Hr Hup.
  destruct (credentials_file_removed_on_success w st b c Hb Hcr Hc Hr Hup) as [Hret Hex].
  split; [exact Hret|]. unfold Upload.exists_file in Hex.
  destruct (dict_get Upload.creds_path _); [discriminate | reflexivity].
Qed.

Lemma complete_run_removes_credentials_witness :
  snd (Upload.main two_reports configured) = Upload.Returned
  /\ dict_get Upload.creds_path (Upload.disk (fst (Upload.main two_reports configured))) = None.
Proof.
  refine (complete_run_removes_credentials two_reports configured
            "reports-bucket" "{secret key}" _ _ _ _).
  - split; reflexivity.
  - reflexivity.
  - reflexivity.
  - intros name _. reflexivity.
Defined.

Lemma upload_all_fails (w : Upload.world) (b p : string) (fs : list (string * bool)) :
  (exists name, In (name, true) fs /\ Upload.upload_ok w name = false) ->
  forall st, snd (Upload.upload_all w b p fs st) = Upload.Failed.
Proof.
  induction fs as [|[name is_file] fs IH]; intros (n & Hin & Hno) st.
  - contradiction.
  - cbn [Upload.upload_all]. destruct Hin as [Heq|Hin].
    + injection Heq as -> ->. now rewrite Hno.
    + assert (Hex : exists x, In (x, true) fs /\ Upload.upload_ok w x = false)
        by (exists n; auto).
      destruct is_file; [|now apply IH].
      destruct (Upload.upload_ok w name); [now apply IH | reflexivity].
Qed.

(** X8.  A configured run that is cut short, by the client, by a missing
    reports directory or by an upload that fails, leaves the credentials
    on disk, at the path and with the value of the variable. *)
Theorem cut_short_run_leaves_credentials (w : Upload.world) (st : Upload.state)
    (b c : string) :
  configured_with st b c ->
  cut_short w ->
  dict_get Upload.creds_path (Upload.disk (fst (Upload.main w st))) = Some c.
Proof.
  intros [Hb Hcr] Hcut. unfold Upload.main. rewrite Hb, Hcr.
  assert (Hwritten : forall env bk out,
             dict_get Upload.creds_path
               (Upload.disk (Upload.mk_state
                               (dict_set Upload.creds_path c (Upload.disk st)) env bk out))
             = Some c)
    by (intros; apply dict_get_set_same).
  destruct (Upload.client_ok w) eqn:Hc; [|apply Hwritten].
  destruct (Upload.reports_exist w) eqn:Hr; [|apply Hwritten].
  destruct Hcut as [Hcut|[Hcut|Hcut]]; try congruence.
  match goal with
  | |- context [Upload.upload_all ?w ?b ?p ?fs ?s] =>
      pose proof (upload_all_fails w b p fs Hcut s) as Hret;
      pose proof (upload_all_disk w b p fs s) as Hdisk;
      destruct (Upload.upload_all w b p fs s) as [st3 ex]
  end.
  cbn [fst snd] in Hret, Hdisk. subst ex. cbn [fst]. rewrite Hdisk. apply Hwritten.
Qed.

Lemma cut_short_run_leaves_credentials_witness :
  dict_get Upload.creds_path (Upload.disk (fst (Upload.main second_upload_fails configured)))
  = Some "{secret key}".
Proof.
  refine (cut_short_run_leaves_credentials second_upload_fails configured
            "reports-bucket" "{secret key}" _ _).
  - split; reflexivity.
  - right. right. exists "summary.json". split; [|reflexivity].
    right. right. left. reflexivity.
Defined.

Lemma upload_all_bucket (w : Upload.world) (b p : string) (fs : list (string * bool)) :
  forall st,
    Upload.bucket (fst (Upload.upload_all w b p fs st))
    = (Upload.bucket st ++ map (fun name => (b, (p ++ "/" ++ name)%string)) (sent w fs))%list.
Proof.
  induction fs as [|[name is_file] fs IH]; intros st; cbn [Upload.upload_all sent].
  - cbn. now rewrite app_nil_r.
  - destruct is_file; [|apply IH].
    destruct (Upload.upload_ok w name).
    + rewrite IH. cbn. now rewrite <- app_assoc.
    + cbn. now rewrite app_nil_r.
Qed.


Lemma main_bucket (w : Upload.world) (st : Upload.state) (b c : string) :
  configured_with st b c ->
  Upload.client_ok w = true ->
  Upload.reports_exist w = true ->
  Upload.bucket (fst (Upload.main w st))
  = (Upload.bucket st ++ map (stored_as w b) (sent w (Upload.entries w)))%list.
Proof.
  intros [Hb Hcr] Hc Hr. unfold Upload.main. rewrite Hb, Hcr, Hc, Hr.
  match goal with
  | |- context [Upload.upload_all ?w ?b ?p ?fs ?s] =>
      pose proof (upload_all_bucket w b p fs s) as Hbk;
      destruct (Upload.upload_all w b p fs s) as [st3 ex]
  end.
  cbn [fst] in Hbk. destruct ex; cbn; exact Hbk.
Qed.

(** X9.  When the client is built and the reports directory exists, a
    configured run adds to the bucket, in the order of the listing, one
    object for each regular file up to the first whose upload fails, under
    the key [uncertainty_reports/<date>/<name>]; directories are passed
    over, and what was uploaded before a failure stays. *)
Theorem run_stores_sent_files (w : Upload.world) (st : Upload.state) (b c : string) :
  configured_with st b c ->
  Upload.client_ok w = true ->
  Upload.reports_exist w = true ->
  Upload.bucket (fst (Upload.main w st))
  = (Upload.bucket st ++ map (stored_as w b) (sent w (Upload.entries w)))%list.
Proof. exact (main_bucket w st b c). Qed.

Lemma run_stores_sent_files_witness :
  Upload.bucket (fst (Upload.main second_upload_fails configured))
  = [("reports-bucket", "uncertainty_reports/2024-05-01/report.md")].
Proof.
  refine (run_stores_sent_files second_upload_fails configured
            "reports-bucket" "{secret key}" _ _ _).
  - split; reflexivity.
  - reflexivity.
  - reflexivity.
Defined.

Lemma sent_all (w : Upload.world) (fs : list (string * bool)) :
  (forall name, In (name, true) fs -> Upload.upload_ok w name = true) ->
  sent w fs = map fst (filter snd fs).
Proof.
  induction fs as [|[name is_file] fs IH]; intros Hok; [reflexivity|].
  cbn [sent filter snd]. destruct is_file.
  - rewrite (Hok name (or_introl eq_refl)). cbn [map fst]. f_equal.
    apply IH. intros n Hn. apply Hok. now right.
  - apply IH. intros n Hn. apply Hok. now right.
Qed.

(** X10.  On a run in which every upload succeeds the bucket gains exactly
    the regular files of the reports directory, each once, in the order of
    the listing. *)
Theorem complete_run_stores_every_file (w : Upload.world) (st : Upload.state)
    (b c : string) :
  configured_with st b c ->
  Upload.client_ok w = true ->
  Upload.reports_exist w = true ->
  uploads_succeed w ->
  Upload.bucket (fst (Upload.main w st))
  = (Upload.bucket st ++ map (stored_as w b) (map fst (filter snd (Upload.entries w))))%list.
Proof.
  intros Hconf Hc Hr Hup.
  rewrite (main_bucket w st b c Hconf Hc Hr).
  now rewrite (sent_all w (Upload.entries w) Hup).
Qed.

Lemma complete_run_stores_every_file_witness :
  Upload.bucket (fst (Upload.main two_reports configured))
  = [("reports-bucket", "uncertainty_reports/2024-05-01/report.md");
     ("reports-bucket", "uncertainty_reports/2024-05-01/summary.json")].
Proof.
  refine (complete_run_stores_every_file two_reports configured
            "reports-bucket" "{secret key}" _ _ _ _).
  - split; reflexivity.
  - reflexivity.
  - reflexivity.
  - intros name _. reflexivity.
Defined.



(** ** [_parse_mappings_json]: the text *)

Lemma lstrip_space (w : string) : all_space w = true -> lstrip w = "".
Proof.
  induction w as [|c w IH]; [reflexivity|]. cbn [all_space lstrip].
  intros H. apply andb_prop in H. destruct H as [Hc Hw]. rewrite Hc. auto.
Qed.

Lemma lstrip_app_r (t w : string) :
  all_space t = false -> lstrip (t ++ w) = lstrip t ++ w.
Proof.
  induction t as [|c t IH]; [discriminate|]. cbn [all_space append lstrip].
  destruct (isspace c); [exact IH | reflexivity].
Qed.

Lemma strip_padded (w1 w2 t : string) :
  all_space w1 = true -> all_space w2 = true -> strip (w1 ++ t ++ w2) = strip t.
Proof.
  intros H1 H2. unfold strip. rewrite (lstrip_app_space w1 _ H1).
  destruct (all_space t) eqn:Ht.
  - rewrite (lstrip_space t Ht), (lstrip_space (t ++ w2)); [reflexivity|].
    now rewrite all_space_app, Ht, H2.
  - rewrite (lstrip_app_r t w2 Ht). now apply rstrip_app_space.
Qed.

(** X12.  Whitespace before and after the text does not matter: the
    interpreter gives the same mapping or the same error with and without
    it, whatever the decoder. *)
Theorem surrounding_whitespace_is_ignored (loads : string -> outcome pyval)
    (w1 w2 text : string) :
  all_space w1 = true ->
  all_space w2 = true ->
  _parse_mappings_json loads (w1 ++ text ++ w2) = _parse_mappings_json loads text.
Proof.
  intros H1 H2. unfold _parse_mappings_json, candidate.
  now rewrite (strip_padded w1 w2 text H1 H2).
Qed.

Lemma surrounding_whitespace_is_ignored_witness :
  _parse_mappings_json json_loads ((newline ++ " ") ++ soho_text ++ (" " ++ newline))
  = _parse_mappings_json json_loads soho_text.
Proof.
  refine (surrounding_whitespace_is_ignored json_loads (newline ++ " ") (" " ++ newline)
            soho_text _ _); reflexivity.
Defined.

Lemma has_char_app (c : ascii) (a b : string) :
  has_char c (a ++ b) = has_char c a || has_char c b.
Proof.
  induction a as [|x a IH]; [reflexivity|]. cbn [append has_char].
  now rewrite IH, orb_assoc.
Qed.

Lemma has_char_suffix (c : ascii) (r s : string) :
  suffix r s -> has_char c r = true -> has_char c s = true.
Proof. intros [p ->] H. rewrite has_char_app, H. apply orb_true_r. Qed.

Lemma drop_suffix (n : nat) (s : string) : suffix (drop n s) s.
Proof.
  revert s. induction n as [|n IH]; intros s; [apply suffix_refl|].
  destruct s as [|c s]; [apply suffix_refl|]. cbn [drop]. apply suffix_cons, IH.
Qed.

Lemma try_from_some (k : string -> option string) (s : string) (n : nat) (r : string) :
  try_from k s n = Some r -> exists j, k (drop j s) = Some r.
Proof.
  induction n as [|n IH].
  - cbn [try_from]. destruct (k (drop 0 s)) eqn:E; [|discriminate].
    intros H. injection H as <-. now exists O.
  - change (try_from k s (S n))
      with (match k (drop (S n) s) with
            | Some r0 => Some r0
            | None => try_from k s n
            end).
    destruct (k (drop (S n) s)) eqn:E; [|exact IH].
    intros H. injection H as <-. now exists (S n).
Qed.

(** What a match says about the text, one piece of the pattern at a
    time. *)
Lemma match_here_lit_inv (l : string) (pat : list node) (s start cap g : string) :
  match_here (Lit l :: pat) s start cap = Some g ->
  exists s', s = l ++ s' /\ match_here pat s' start cap = Some g.
Proof.
  cbn [match_here]. destruct (strip_prefix l s) as [s'|] eqn:E; [|discriminate].
  intros H. exists s'. split; [now apply strip_prefix_some | exact H].
Qed.

Lemma match_here_opt_inv (l : string) (pat : list node) (s start cap g : string) :
  match_here (Opt l :: pat) s start cap = Some g ->
  exists s', suffix s' s /\ match_here pat s' start cap = Some g.
Proof.
  cbn [match_here]. destruct (strip_prefix l s) as [s'|] eqn:E.
  - apply strip_prefix_suffix in E.
    destruct (match_here pat s' start cap) as [r|] eqn:Er.
    + intros H. injection H as <-. now exists s'.
    + intros H. exists s. split; [apply suffix_refl | exact H].
  - intros H. exists s. split; [apply suffix_refl | exact H].
Qed.

Lemma match_here_many_inv (p : ascii -> bool) (pat : list node) (s start cap g : string) :
  match_here (Many p :: pat) s start cap = Some g ->
  exists s', suffix s' s /\ match_here pat s' start cap = Some g.
Proof.
  cbn [match_here]. intros H. apply try_from_some in H. destruct H as [j H].
  exists (drop j s). split; [apply drop_suffix | exact H].
Qed.

(** A text in which the pattern matches holds an opening brace. *)
Lemma match_here_fence_brace (s g : string) :
  match_here fence s "" "" = Some g -> has_char "{" s = true.
Proof.
  unfold fence. intros H.
  apply match_here_lit_inv in H. destruct H as (s1 & Hs1 & H).
  apply match_here_opt_inv in H. destruct H as (s2 & Hs2 & H).
  apply match_here_many_inv in H. destruct H as (s3 & Hs3 & H).
  change (match_here [Open; Lit "{"; Many any_char; Lit "}"; Close; Many isspace; Lit "```"]
            s3 "" "")
    with (match_here [Lit "{"; Many any_char; Lit "}"; Close; Many isspace; Lit "```"]
            s3 s3 "") in H.
  apply match_here_lit_inv in H. destruct H as (s4 & Hs4 & _).
  apply (has_char_suffix "{" s3 s).
  - eapply suffix_trans; [exact Hs3|]. eapply suffix_trans; [exact Hs2|].
    exists "```". exact Hs1.
  - now rewrite Hs4.
Qed.

Lemma search_fence_brace (s g : string) :
  search fence s = Some g -> has_char "{" s = true.
Proof.
  induction s as [|c s IH]; cbn [search].
  - destruct (match_here fence "" "" "") eqn:E; [|discriminate].
    intros _. eapply match_here_fence_brace; eassumption.
  - destruct (match_here fence (String c s) "" "") eqn:E.
    + intros _. eapply match_here_fence_brace; eassumption.
    + intros H. cbn [has_char]. rewrite (IH H). apply orb_true_r.
Qed.

Lemma has_char_strip (c : ascii) (t : string) :
  has_char c t = false -> has_char c (strip t) = false.
Proof.
  destruct (strip_split t) as (l & r & Ht & _ & _). intros H.
  rewrite Ht, !has_char_app in H.
  apply orb_false_elim in H. destruct H as [_ H].
  apply orb_false_elim in H. now destruct H.
Qed.

(** X13.  A text without an opening brace never gives a mapping: an error
    of the decoder goes through, and a text that does decode (to a number,
    a string, an array, ...) raises [AttributeError] at [data.get]. *)
Theorem text_without_brace_raises (text : string) :
  has_char "{" text = false ->
  _parse_mappings_json json_loads text =
    match json_loads (strip text) with
    | Return _ => Raise AttributeError
    | Raise e => Raise e
    end.
Proof.
  intros Hno. pose proof (has_char_strip "{" text Hno) as Hs.
  unfold _parse_mappings_json, candidate.
  destruct (search fence (strip text)) as [g|] eqn:Eg.
  { apply search_fence_brace in Eg. congruence. }
  destruct (json_loads (strip text)) as [v|e] eqn:Ev; [|reflexivity].
  cbn [bind]. destruct v; try reflexivity.
  destruct (json_object_shape _ _ Ev) as [body Hb].
  pose proof (has_char_strip "{" _ Hs) as Hss. rewrite Hb in Hss. discriminate.
Qed.

Lemma text_without_brace_raises_witness :
  _parse_mappings_json json_loads prose_text =
    match json_loads (strip prose_text) with
    | Return _ => Raise AttributeError
    | Raise e => Raise e
    end.
Proof.
  refine (text_without_brace_raises prose_text _). reflexivity.
Defined.

Example prose_raises_decode_error :
  _parse_mappings_json json_loads prose_text = Raise JSONDecodeError.
Proof. vm_compute. reflexivity. Qed.

(** ** [_parse_mappings_json]: the document and its elements *)

Lemma for_items_app (a b : list pyval) :
  forall result,
    for_items result (a ++ b)%list = (r <- for_items result a ;; for_items r b).
Proof.
  induction a as [|item a IH]; intros result; [reflexivity|].
  cbn [app for_items]. destruct (store_item result item) as [r1|]; [|reflexivity].
  cbn [bind]. apply IH.
Qed.

Lemma for_items_named_only (items : list pyval) :
  forall result, for_items result items = for_items result (filter named items).
Proof.
  induction items as [|item items IH]; intros result; [reflexivity|].
  cbn [for_items filter]. unfold named at 1.
  destruct (entry_key item) as [k|] eqn:Ek.
  - cbn [for_items]. destruct (store_item result item) as [r1|]; [|reflexivity].
    cbn [bind]. apply IH.
  - rewrite (store_item_unnamed result item Ek). cbn [bind]. apply IH.
Qed.

Lemma read_mappings_nonempty (d : dict pyval) (item : pyval) (items : list pyval) :
  get_default d "mappings" PNone = PList (item :: items) ->
  read_mappings (PDict d) = for_items [] (item :: items).
Proof. intros H. unfold read_mappings. cbn [attr_get bind]. now rewrite H. Qed.

(** X14.  Elements of a [mappings] array that are not objects, and objects
    whose [original_name] is absent or [null], have no effect, whatever
    else they hold: the interpreter gives what the loop gives on the other
    elements alone. *)
Theorem unnamed_elements_have_no_effect (loads : string -> outcome pyval) (text : string)
    (d : dict pyval) (item : pyval) (items : list pyval) :
  loads (candidate text) = Return (PDict d) ->
  get_default d "mappings" PNone = PList (item :: items) ->
  _parse_mappings_json loads text = for_items [] (filter named (item :: items)).
Proof.
  intros Hload Hm. unfold _parse_mappings_json. rewrite Hload. cbn [bind].
  rewrite (read_mappings_nonempty d item items Hm). apply for_items_named_only.
Qed.

Lemma unnamed_elements_have_no_effect_witness :
  json_loads (candidate noisy_text) = Return (PDict [("mappings", PList noisy_items)])
  /\ filter named noisy_items
     = [PDict [("original_name", PStr "a"); ("affluence_score", PInt 3)]]
  /\ _parse_mappings_json json_loads noisy_text = for_items [] (filter named noisy_items).
Proof.
  split; [vm_compute; reflexivity|]. split; [reflexivity|].
  refine (unnamed_elements_have_no_effect json_loads noisy_text
            [("mappings", PList noisy_items)] (PInt 7) (tl noisy_items) _ _).
  - vm_compute. reflexivity.
  - reflexivity.
Defined.

Example noisy_example :
  _parse_mappings_json json_loads noisy_text = Return [("a", mk_record "Unknown" 3)].
Proof. vm_compute. reflexivity. Qed.

(** X15.  The key [mapping] is read whenever what [mappings] holds is
    falsy, so also when it is an empty array, [null], [false] or 0, and
    not only when [mappings] is absent. *)
Theorem mapping_is_read_when_mappings_is_falsy (loads : string -> outcome pyval)
    (text : string) (d : dict pyval) (items : list pyval) :
  loads (candidate text) = Return (PDict d) ->
  truthy (get_default d "mappings" PNone) = false ->
  get_default d "mapping" PNone = PList items ->
  _parse_mappings_json loads text = for_items [] items.
Proof.
  intros Hload Hm Hf. unfold _parse_mappings_json. rewrite Hload. cbn [bind].
  unfold read_mappings. cbn [attr_get bind]. unfold py_or. rewrite Hm, Hf.
  destruct items; reflexivity.
Qed.

Lemma mapping_is_read_when_mappings_is_falsy_witness :
  _parse_mappings_json json_loads fallback_text
  = for_items [] [PDict [("original_name", PStr "a"); ("affluence_score", PInt 3)]].
Proof.
  refine (mapping_is_read_when_mappings_is_falsy json_loads fallback_text
            [("mappings", PList []);
             ("mapping", PList [PDict [("original_name", PStr "a");
                                       ("affluence_score", PInt 3)]])]
            _ _ _ _).
  - vm_compute. reflexivity.
  - reflexivity.
  - reflexivity.
Defined.

(** X16.  An empty [mappings] array does not settle the matter: with a
    truthy value that is not an array under [mapping], the interpreter
    raises [ValueError], although [mappings] does hold an array. *)
Theorem empty_mappings_with_bad_mapping_raises (loads : string -> outcome pyval)
    (text : string) (d : dict pyval) :
  loads (candidate text) = Return (PDict d) ->
  get_default d "mappings" PNone = PList [] ->
  truthy (get_default d "mapping" PNone) = true ->
  is_list (get_default d "mapping" PNone) = false ->
  _parse_mappings_json loads text = Raise (ValueError "Expected 'mappings' array").
Proof.
  intros Hload Hm Ht Hl. unfold _parse_mappings_json. rewrite Hload. cbn [bind].
  unfold read_mappings. cbn [attr_get bind]. unfold py_or. rewrite Hm. cbn [truthy].
  rewrite Ht. destruct (get_default d "mapping" PNone); try reflexivity; discriminate.
Qed.

Lemma empty_mappings_with_bad_mapping_raises_witness :
  _parse_mappings_json json_loads (q "{'mappings':[],'mapping':'none'}")
  = Raise (ValueError "Expected 'mappings' array").
Proof.
  refine (empty_mappings_with_bad_mapping_raises json_loads
            (q "{'mappings':[],'mapping':'none'}")
            [("mappings", PList []); ("mapping", PStr "none")] _ _ _ _).
  - vm_compute. reflexivity.
  - reflexivity.
  - reflexivity.
  - reflexivity.
Defined.

(** X17.  The last element with a name decides its record: when the
    interpreter returns, the mapping holds, under the text of the name of
    an element that no later element shares the name of, the sub-region
    and the clamped score of that element. *)
Theorem last_element_decides_record (loads : string -> outcome pyval) (text : string)
    (d di : dict pyval) (pre post : list pyval) (name : pyval) (result : dict record) :
  loads (candidate text) = Return (PDict d) ->
  get_default d "mappings" PNone = PList (pre ++ PDict di :: post)%list ->
  dict_get "original_name" di = Some name ->
  name <> PNone ->
  (forall item, In item post -> entry_key item <> Some (py_str name)) ->
  _parse_mappings_json loads text = Return result ->
  exists z,
    coerce_score (get_default di "affluence_score" (PInt 5)) = Return z
    /\ dict_get (py_str name) result =
         Some (mk_record (py_str (get_default di "sub_region" (PStr "Unknown"))) (clamp z)).
Proof.
  intros Hload Hm Hn Hnn Hlater Hret.
  unfold _parse_mappings_json in Hret. rewrite Hload in Hret. cbn [bind] in Hret.
  assert (Hfor : for_items [] (pre ++ PDict di :: post)%list = Return result).
  { destruct (pre ++ PDict di :: post)%list as [|x l] eqn:E.
    - now destruct pre.
    - now rewrite (read_mappings_nonempty d x l Hm) in Hret. }
  rewrite for_items_app in Hfor.
  destruct (for_items [] pre) as [r0|]; [|discriminate]. cbn [bind for_items] in Hfor.
  rewrite (store_item_named r0 di name Hn Hnn) in Hfor.
  destruct (coerce_score (get_default di "affluence_score" (PInt 5))) as [z|];
    [|discriminate].
  cbn [bind] in Hfor. exists z. split; [reflexivity|].
  eapply later_elements_keep_record; [exact Hlater | | exact Hfor].
  apply dict_get_set_same.
Qed.

Lemma last_element_decides_record_witness :
  exists z,
    coerce_score (get_default [("original_name", PStr "a"); ("affluence_score", PInt 2)]
                    "affluence_score" (PInt 5)) = Return z
    /\ dict_get "a" [("a", mk_record "Unknown" 2)] = Some (mk_record "Unknown" (clamp z)).
Proof.
  refine (last_element_decides_record json_loads twice_text
            [("mappings", PList twice_items)]
            [("original_name", PStr "a"); ("affluence_score", PInt 2)]
            [PDict [("original_name", PStr "a"); ("affluence_score", PInt 1)]] []
            (PStr "a") [("a", mk_record "Unknown" 2)] _ _ _ _ _ _).
  - vm_compute. reflexivity.
  - reflexivity.
  - reflexivity.
  - discriminate.
  - intros item [].
  - vm_compute. reflexivity.
Defined.

(** X18.  A score that [int] turns into an integer from 1 to 10 is stored
    as that integer: the element with a name is stored, and nothing is
    clamped. *)
Theorem in_range_score_is_kept (result : dict record) (d : dict pyval) (name : pyval)
    (z : Z) :
  dict_get "original_name" d = Some name ->
  name <> PNone ->
  py_int (get_default d "affluence_score" (PInt 5)) = Return z ->
  1 <= z <= 10 ->
  store_item result (PDict d) =
    Return (dict_set (py_str name)
              (mk_record (py_str (get_default d "sub_region" (PStr "Unknown"))) z)
              result).
Proof.
  intros Hn Hnn Hint Hz. rewrite (store_item_named _ _ _ Hn Hnn).
  unfold coerce_score. rewrite Hint. cbn [bind]. now rewrite (clamp_inside z Hz).
Qed.

Lemma in_range_score_is_kept_witness :
  store_item []
    (PDict [("original_name", PStr "SoHo"); ("sub_region", PStr "Lower Manhattan");
            ("affluence_score", PStr "9")])
  = Return [("SoHo", mk_record "Lower Manhattan" 9)].
Proof.
  refine (in_range_score_is_kept []
            [("original_name", PStr "SoHo"); ("sub_region", PStr "Lower Manhattan");
             ("affluence_score", PStr "9")] (PStr "SoHo") 9 _ _ _ _).
  - reflexivity.
  - discriminate.
  - reflexivity.
  - lia.
Defined.

(** ** [get_neighborhood_data] *)

Lemma blank_text_raises (text : string) :
  all_space text = true -> _parse_mappings_json json_loads text = Raise JSONDecodeError.
Proof.
  intros H. unfold _parse_mappings_json, candidate, strip.
  now rewrite (lstrip_space text H).
Qed.

(** X19.  A reply with no content, or with only whitespace for content, is
    an error and not an empty mapping: once the model is settled, the call
    raises the decoder's error, whatever neighborhoods were asked for. *)
Theorem blank_reply_raises (listing : outcome list_response)
    (chat : chat_request -> outcome (option string)) (neighborhoods : list string)
    (model : option string) (reply : option string) :
  model <> None \/ (exists resp, listing = Return resp) ->
  (forall request, chat request = Return reply) ->
  all_space (reply_content reply) = true ->
  get_neighborhood_data json_loads listing chat neighborhoods model = Raise JSONDecodeError.
Proof.
  intros Hmodel Hchat Hblank. unfold get_neighborhood_data.
  assert (Hm : exists m,
             match model with
             | Some m0 => Return m0
             | None => resp <- listing ;; Return (_pick_model resp default_model)
             end = Return m).
  { destruct model as [m0|]; [now exists m0|].
    destruct Hmodel as [Hm|[resp Hl]]; [congruence|]. rewrite Hl. cbn. eauto. }
  destruct Hm as [m Hm]. rewrite Hm. cbn [bind]. rewrite Hchat. cbn [bind].
  now apply blank_text_raises.
Qed.

Lemma blank_reply_raises_witness :
  get_neighborhood_data json_loads (Return (Some [Some "llama3.1:8b"])) (answers None)
    ["SoHo"; "Flatbush"] None
  = Raise JSONDecodeError.
Proof.
  refine (blank_reply_raises (Return (Some [Some "llama3.1:8b"])) (answers None)
            ["SoHo"; "Flatbush"] None None _ _ _).
  - right. eexists. reflexivity.
  - intros request. reflexivity.
  - reflexivity.
Defined.

(** X20.  Whatever the listing and the chat service answer, and whatever
    the decoder, every record of a mapping [get_neighborhood_data] returns
    has a score from 1 to 10. *)
Theorem neighborhood_scores_in_range (loads : string -> outcome pyval)
    (listing : outcome list_response) (chat : chat_request -> outcome (option string))
    (neighborhoods : list string) (model : option string) (result : dict record) :
  get_neighborhood_data loads listing chat neighborhoods model = Return result ->
  forall name r, In (name, r) result -> 1 <= affluence_score r <= 10.
Proof.
  unfold get_neighborhood_data, _parse_mappings_json. intros H.
  destruct (match model with
            | Some m0 => Return m0
            | None => resp <- listing ;; Return (_pick_model resp default_model)
            end) as [m|]; [|discriminate].
  cbn [bind] in H. destruct (chat _) as [reply|]; [|discriminate].
  cbn [bind] in H. destruct (loads _) as [data|]; [|discriminate].
  cbn [bind] in H. exact (read_mappings_bounded data result H).
Qed.

Lemma neighborhood_scores_in_range_witness :
  1 <= affluence_score (mk_record "Unknown" 10) <= 10.
Proof.
  refine (neighborhood_scores_in_range json_loads (Return (Some [Some "llama3.1:8b"]))
            (answers (Some soho_text)) ["SoHo"; "Flatbush"] None soho_result _
            "Flatbush" (mk_record "Unknown" 10) _).
  - vm_compute. reflexivity.
  - right. left. reflexivity.
Defined.

(** ** [_parse_mappings_json]: text around a fenced block *)

Section FramedFence.

Lemma lstrip_app_nonspace (pre y : string) (c : ascii) :
  isspace c = false -> lstrip (pre ++ String c y) = lstrip pre ++ String c y.
Proof.
  intros Hc. induction pre as [|a pre IH]; cbn [append lstrip].
  - now rewrite Hc.
  - destruct (isspace a); [exact IH | reflexivity].
Qed.

Lemma rstrip_app_nonspace (z post : string) (c : ascii) :
  isspace c = false -> rstrip (z ++ String c post) = z ++ String c (rstrip post).
Proof.
  intros Hc. induction z as [|a z IH]; cbn [append rstrip].
  - rewrite Hc. now destruct (rstrip post).
  - rewrite IH. now destruct z.
Qed.

Lemma has_char_lstrip (c : ascii) (s : string) :
  has_char c s = false -> has_char c (lstrip s) = false.
Proof.
  destruct (lstrip_split s) as (l & Hl & _). intros H.
  rewrite Hl, has_char_app in H. apply orb_false_elim in H. now destruct H.
Qed.

Lemma contains_rstrip (p s : string) :
  contains p s = false -> contains p (rstrip s) = false.
Proof.
  destruct (rstrip_split s) as (r & Hr & _). intros H.
  destruct (contains p (rstrip s)) eqn:E; [|reflexivity].
  rewrite Hr in H. now rewrite (contains_app_r p _ r E) in H.
Qed.

Lemma prefix_contains (p s : string) : prefix p s = true -> contains p s = true.
Proof. intros H. destruct s; cbn [contains]; now rewrite H. Qed.

Lemma contains_suffix (p r s : string) :
  suffix r s -> contains p r = true -> contains p s = true.
Proof. intros [a ->]. apply contains_app_l. Qed.

(** The search passes over text without a backtick. *)
Lemma search_fence_skips (pre y : string) :
  has_char "`" pre = false -> search fence (pre ++ y) = search fence y.
Proof.
  induction pre as [|a pre IH]; [reflexivity|]. cbn [has_char append]. intros H.
  apply orb_false_elim in H. destruct H as [Ha Hpre].
  change (search fence (String a (pre ++ y)))
    with (match match_here fence (String a (pre ++ y)) "" "" with
          | Some g => Some g
          | None => search fence (pre ++ y)
          end).
  destruct (match_here fence (String a (pre ++ y)) "" "") as [g|] eqn:E; [|auto].
  apply match_here_lit_inv in E. destruct E as (s' & Hs & _).
  cbn [append] in Hs. injection Hs as Hs _. subst a. discriminate.
Qed.

Lemma closing_needs_brace (c : ascii) (s start cap : string) :
  Ascii.eqb "}" c = false -> match_here closing (String c s) start cap = None.
Proof. intros H. unfold closing. cbn [match_here strip_prefix]. now rewrite H. Qed.

Lemma closing_not_at_space (c : ascii) (s start cap : string) :
  isspace c = true -> match_here closing (String c s) start cap = None.
Proof.
  intros H. apply closing_needs_brace.
  destruct (Ascii.eqb_spec "}" c) as [<-|]; [discriminate | reflexivity].
Qed.

(** Where the end of the pattern matches, three backticks follow. *)
Lemma closing_contains_fence (u start cap g : string) :
  match_here closing u start cap = Some g -> contains "```" u = true.
Proof.
  unfold closing. intros H.
  apply match_here_lit_inv in H. destruct H as (u1 & Hu1 & H).
  change (match_here [Close; Many isspace; Lit "```"] u1 start cap)
    with (match_here [Many isspace; Lit "```"] u1 start
            (take (String.length start - String.length u1) start)) in H.
  apply match_here_many_inv in H. destruct H as (u2 & Hu2 & H).
  apply match_here_lit_inv in H. destruct H as (u3 & Hu3 & _).
  apply (contains_suffix "```" u2 u).
  - eapply suffix_trans; [exact Hu2|]. exists "}". exact Hu1.
  - rewrite Hu3. apply prefix_contains. apply (prefix_app "```" "```" u3). reflexivity.
Qed.

Lemma closing_not_in_rest (post start cap : string) :
  contains "```" post = false ->
  forall j, match_here closing (drop j post) start cap = None.
Proof.
  intros Hpost j. destruct (match_here closing (drop j post) start cap) eqn:E;
    [|reflexivity].
  apply closing_contains_fence in E.
  now rewrite (contains_suffix "```" _ post (drop_suffix j post) E) in Hpost.
Qed.

(** After the closing brace of the block, the end of the pattern matches
    nowhere: not in the whitespace, not in the backticks, not in what
    follows them. *)
Lemma closing_not_after (w post start cap : string) :
  all_space w = true ->
  contains "```" post = false ->
  forall i, match_here closing (drop i (w ++ "```" ++ post)) start cap = None.
Proof.
  intros Hw Hpost. induction w as [|c w IH]; intros i.
  - cbn [append].
    destruct i as [|[|[|j]]]; cbn [drop];
      try (apply closing_needs_brace; reflexivity).
    now apply closing_not_in_rest.
  - cbn [all_space] in Hw. apply andb_prop in Hw. destruct Hw as [Hc Hw].
    destruct i as [|i]; cbn [append drop].
    + now apply closing_not_at_space.
    + exact (IH Hw i).
Qed.

Lemma match_here_tail_framed (w post start cap : string) :
  all_space w = true ->
  match_here [Many isspace; Lit "```"] (w ++ "```" ++ post) start cap = Some cap.
Proof.
  intros Hw.
  apply (match_here_spaces w ("``" ++ post) "`" [Lit "```"] start cap cap Hw);
    [reflexivity|].
  change (String "`" ("``" ++ post)) with ("```" ++ post).
  now rewrite match_here_lit.
Qed.

Lemma match_here_body_framed (body w post start cap : string) :
  all_space w = true ->
  contains "```" post = false ->
  match_here (Many any_char :: closing) (body ++ "}" ++ w ++ "```" ++ post) start cap
  = Some (take (String.length start - String.length (w ++ "```" ++ post)) start).
Proof.
  intros Hw Hpost. cbn [match_here]. rewrite span_any.
  apply try_from_longest with (j := String.length body).
  - rewrite drop_app_length.
    change ("}" ++ w ++ "```" ++ post) with (String "}" (w ++ "```" ++ post)).
    unfold closing. cbn [match_here strip_prefix]. rewrite Ascii.eqb_refl.
    exact (match_here_tail_framed w post start _ Hw).
  - rewrite length_app_s. lia.
  - intros i Hi.
    replace i with (String.length body + S (i - String.length body - 1))%nat by lia.
    rewrite drop_app_more.
    change (drop (S (i - String.length body - 1)) ("}" ++ w ++ "```" ++ post))
      with (drop (i - String.length body - 1) (w ++ "```" ++ post)).
    exact (closing_not_after w post start cap Hw Hpost _).
Qed.

Lemma fence_matches_framed (tag w body w' post : string) :
  tag = "" \/ tag = "json" ->
  all_space w = true ->
  all_space w' = true ->
  contains "```" post = false ->
  match_here fence
    ("```" ++ tag ++ w ++ String "{" (body ++ "}" ++ w' ++ "```" ++ post)) "" ""
  = Some (String "{" (body ++ "}")).
Proof.
  intros Htag Hw Hw' Hpost. unfold fence. rewrite match_here_lit.
  apply (match_here_tag tag w _ _ _ _ _ Htag Hw).
  apply (match_here_spaces w _ "{" _ _ _ _ Hw); [reflexivity|].
  change (match_here [Open; Lit "{"; Many any_char; Lit "}"; Close; Many isspace; Lit "```"]
            (String "{" (body ++ "}" ++ w' ++ "```" ++ post)) "" "")
    with (match_here (Lit "{" :: Many any_char :: closing)
            ("{" ++ (body ++ "}" ++ w' ++ "```" ++ post))
            (String "{" (body ++ "}" ++ w' ++ "```" ++ post)) "").
  rewrite match_here_lit, (match_here_body_framed body w' post _ _ Hw' Hpost). f_equal.
  replace (String "{" (body ++ "}" ++ w' ++ "```" ++ post))
    with (String "{" (body ++ "}") ++ (w' ++ "```" ++ post))
    by (simpl; now rewrite app_assoc_s).
  rewrite length_app_s, Nat.add_sub. apply take_app_length.
Qed.

(** What is decoded for a fenced object with text around the block is the
    object, stripped. *)
Lemma candidate_framed (pre post tag w2 w3 t body : string) :
  has_char "`" pre = false ->
  contains "```" post = false ->
  strip t = String "{" (body ++ "}") ->
  tag = "" \/ tag = "json" ->
  all_space w2 = true ->
  all_space w3 = true ->
  candidate (framed pre post tag w2 w3 t) = strip t.
Proof.
  intros Hpre Hpost Hs Htag H2 H3. unfold candidate.
  destruct (strip_split t) as (l & r & Ht & Hl & Hr). rewrite Hs in *.
  assert (Hstrip : strip (framed pre post tag w2 w3 t)
                   = lstrip pre ++ "```" ++ tag ++ (w2 ++ l)
                     ++ String "{" (body ++ "}" ++ (r ++ w3) ++ "```" ++ rstrip post)).
  { unfold strip, framed.
    change (pre ++ "```" ++ tag ++ w2 ++ t ++ w3 ++ "```" ++ post)
      with (pre ++ String "`" ("``" ++ tag ++ w2 ++ t ++ w3 ++ "```" ++ post)).
    rewrite lstrip_app_nonspace by reflexivity.
    replace (lstrip pre ++ String "`" ("``" ++ tag ++ w2 ++ t ++ w3 ++ "```" ++ post))
      with ((lstrip pre ++ "```" ++ tag ++ w2 ++ t ++ w3 ++ "``") ++ String "`" post)
      by (repeat (rewrite !app_assoc_s || simpl); reflexivity).
    rewrite rstrip_app_nonspace by reflexivity. rewrite Ht.
    repeat (rewrite !app_assoc_s || simpl). reflexivity. }
  rewrite Hstrip, (search_fence_skips _ _ (has_char_lstrip "`" pre Hpre)).
  rewrite (search_here fence _ (String "{" (body ++ "}"))); [reflexivity|].
  apply fence_matches_framed; [assumption| | |now apply contains_rstrip];
    rewrite all_space_app.
  - now rewrite H2, Hl.
  - now rewrite Hr, H3.
Qed.

End FramedFence.

(** X21.  Text around a fenced block is dropped.  When the text before the
    block has no backtick and the text after it has no three backticks in
    a row, and the block holds, between optional whitespace, a text that
    goes from a brace to a brace once stripped, the interpreter decodes
    exactly that text, whatever the decoder and whatever the rest says. *)
Theorem text_around_fence_is_dropped (loads : string -> outcome pyval)
    (pre post tag w2 w3 t body : string) :
  has_char "`" pre = false ->
  contains "```" post = false ->
  strip t = String "{" (body ++ "}") ->
  tag = "" \/ tag = "json" ->
  all_space w2 = true ->
  all_space w3 = true ->
  _parse_mappings_json loads (framed pre post tag w2 w3 t)
  = (data <- loads (strip t) ;; read_mappings data).
Proof.
  intros Hpre Hpost Hs Htag H2 H3. unfold _parse_mappings_json.
  now rewrite (candidate_framed pre post tag w2 w3 t body Hpre Hpost Hs Htag H2 H3).
Qed.

Lemma text_around_fence_is_dropped_witness :
  _parse_mappings_json json_loads
    (framed "Sure! Here it is: " " Let me know if {this} helps." "json" newline newline
       plain_object_text)
  = (data <- json_loads (strip plain_object_text) ;; read_mappings data).
Proof.
  refine (text_around_fence_is_dropped json_loads
            "Sure! Here it is: " " Let me know if {this} helps." "json" newline newline
            plain_object_text
            (q "'mappings':[{'original_name':'a'}]") _ _ _ _ _ _).
  - reflexivity.
  - reflexivity.
  - vm_compute. reflexivity.
  - right. reflexivity.
  - reflexivity.
  - reflexivity.
Defined.

Example text_around_fence_example :
  _parse_mappings_json json_loads
    (framed "Sure! Here it is: " " Let me know if {this} helps." "json" newline newline
       plain_object_text)
  = Return [("a", mk_record "Unknown" 5)].
Proof. vm_compute. reflexivity. Qed.

(** ** More on [_parse_mappings_json] and on the request *)

(** X22.  A text without three backticks in a row is decoded as it is,
    stripped: nothing of it is cut away. *)
Theorem text_without_backticks_is_decoded_whole (loads : string -> outcome pyval)
    (text : string) :
  contains "```" text = false ->
  _parse_mappings_json loads text = (data <- loads (strip text) ;; read_mappings data).
Proof.
  intros H. unfold _parse_mappings_json, candidate.
  now rewrite (no_backticks_no_fence text H).
Qed.

Lemma text_without_backticks_is_decoded_whole_witness :
  _parse_mappings_json json_loads (" " ++ plain_object_text)
  = (data <- json_loads (strip (" " ++ plain_object_text)) ;; read_mappings data).
Proof.
  refine (text_without_backticks_is_decoded_whole json_loads (" " ++ plain_object_text) _).
  vm_compute. reflexivity.
Defined.

(** X23.  The elements of an array can make the loop fail in one way only:
    the exception is [OverflowError], and an element that is stored (an
    object with a name that is not [null]) has an infinite float for a
    score. *)
Theorem loop_fails_only_on_infinite_score (items : list pyval) (e : exn) :
  forall result,
    for_items result items = Raise e ->
    e = OverflowError
    /\ exists item, In item items /\ named item = true /\ infinite_score item = true.
Proof.
  induction items as [|item items IH]; intros result; [discriminate|].
  cbn [for_items]. destruct (store_item result item) as [r1|e1] eqn:Es; cbn [bind].
  - intros H. destruct (IH r1 H) as (He & x & Hin & Hx). split; [exact He|].
    exists x. split; [now right | exact Hx].
  - intros H. injection H as <-.
    destruct (store_item_raises_only_overflow result item e1 Es) as [He Hinf].
    split; [exact He|]. exists item. split; [now left|]. split; [|exact Hinf].
    unfold named. destruct (entry_key item) eqn:Ek; [reflexivity|].
    rewrite (store_item_unnamed result item Ek) in Es. discriminate.
Qed.

Lemma loop_fails_only_on_infinite_score_witness :
  OverflowError = OverflowError
  /\ exists item,
       In item [PDict [("original_name", PStr "a");
                       ("affluence_score", PFloat (S754_infinity false))]]
       /\ named item = true /\ infinite_score item = true.
Proof.
  refine (loop_fails_only_on_infinite_score
            [PDict [("original_name", PStr "a");
                    ("affluence_score", PFloat (S754_infinity false))]]
            OverflowError [] _).
  reflexivity.
Defined.

Lemma prefix_refl (s : string) : prefix s s = true.
Proof.
  induction s as [|c s IH]; [reflexivity|]. cbn [prefix].
  destruct (ascii_dec c c); [exact IH | congruence].
Qed.

Lemma contains_join (sep n : string) (l : list string) :
  In n l -> contains n (join sep l) = true.
Proof.
  induction l as [|x l IH]; [contradiction|]. intros Hin.
  assert (Hx : contains x x = true) by (apply prefix_contains, prefix_refl).
  destruct l as [|y l].
  - destruct Hin as [->|[]]. exact Hx.
  - cbn [join]. fold (join sep (y :: l)). destruct Hin as [->|Hin].
    + now apply contains_app_r.
    + apply contains_app_l, contains_app_l. auto.
Qed.

(** X24.  Every neighborhood asked for is written out in the user message
    of the request. *)
Theorem user_prompt_names_every_neighborhood (neighborhoods : list string) (n : string) :
  In n neighborhoods -> contains n (user_prompt neighborhoods) = true.
Proof.
  intros Hin. unfold user_prompt. apply contains_app_l. now apply contains_join.
Qed.

Lemma user_prompt_names_every_neighborhood_witness :
  contains "Flatbush" (user_prompt ["SoHo"; "Flatbush"]) = true.
Proof.
  refine (user_prompt_names_every_neighborhood ["SoHo"; "Flatbush"] "Flatbush" _).
  right. left. reflexivity.
Defined.
